(** * freemail: message ingestion, envelope construction and the read path

    A shallow embedding of [handleEmailReceive] (email/receiver), of the
    message routes of [handleEmailsApi] (api/emails) and of the code shown by
    [showEmailDetail] (modules/app/email-viewer), with the properties the
    specification states about them.

    JavaScript strings are sequences of UTF-16 code units: [slice], [trim]
    and the class [\s] all work on code units, so a string is a [list N]. *)

From Stdlib Require Import String Ascii.
From Stdlib Require Import List NArith ZArith Bool Lia DecimalString.
Import ListNotations.

Set Implicit Arguments.
Set Warnings "-register-all".

(* ------------------------------------------------------------------ *)
(** ** Strings *)
(* ------------------------------------------------------------------ *)

Definition jsstring := list N.

(** An ASCII literal as a string of code units. *)
Definition lit (s : string) : jsstring :=
  List.map N_of_ascii (list_ascii_of_string s).

Definition CR : N := 13%N.
Definition LF : N := 10%N.
Definition CRLF : jsstring := [CR; LF].
(** The double-quote character. *)
Definition DQ : jsstring := [34%N].

(** A string is truthy when it is not empty. *)
Definition nonEmpty (s : jsstring) : bool :=
  match s with [] => false | _ :: _ => true end.

(** [a === b] on strings. *)
Fixpoint streq (a b : jsstring) : bool :=
  match a, b with
  | [], [] => true
  | x :: a', y :: b' => (x =? y)%N && streq a' b'
  | _, _ => false
  end.

(** [a || b] on strings. *)
Definition orStr (a b : jsstring) : jsstring := if nonEmpty a then a else b.

(** [a || null] on a string. *)
Definition orNull (a : jsstring) : option jsstring :=
  if nonEmpty a then Some a else None.

(** [Array.prototype.join]. *)
Fixpoint join (sep : jsstring) (l : list jsstring) : jsstring :=
  match l with
  | [] => []
  | [x] => x
  | x :: rest => x ++ sep ++ join sep rest
  end.

(** [String.prototype.slice(0, n)]. *)
Definition slice0 (n : nat) (s : jsstring) : jsstring := firstn n s.

(** The class [\s] of a JavaScript regular expression, which is also the
    set of characters [String.prototype.trim] strips: WhiteSpace and
    LineTerminator code points. *)
Definition isWhite (c : N) : bool :=
  ((9 <=? c) && (c <=? 13) || (c =? 32) || (c =? 160) || (c =? 5760)
   || ((8192 <=? c) && (c <=? 8202)) || (c =? 8232) || (c =? 8233)
   || (c =? 8239) || (c =? 8287) || (c =? 12288) || (c =? 65279))%N.

Definition SPACE : N := 32%N.

(** [s.replace(/\s+/g, ' ')]: every maximal run of white space becomes one
    space.  [inRun] tells that the previous character belonged to a run that
    has already been replaced. *)
Fixpoint replaceWsRuns (inRun : bool) (s : jsstring) : jsstring :=
  match s with
  | [] => []
  | c :: r =>
      if isWhite c
      then (if inRun then replaceWsRuns true r else SPACE :: replaceWsRuns true r)
      else c :: replaceWsRuns false r
  end.

Fixpoint dropWhile (p : N -> bool) (s : jsstring) : jsstring :=
  match s with
  | [] => []
  | c :: r => if p c then dropWhile p r else s
  end.

Definition trimStart (s : jsstring) : jsstring := dropWhile isWhite s.
Definition trimEnd (s : jsstring) : jsstring := rev (dropWhile isWhite (rev s)).
(** [String.prototype.trim]. *)
Definition trim (s : jsstring) : jsstring := trimEnd (trimStart s).

(* ------------------------------------------------------------------ *)
(** ** The JSON payload and its coercion (receiver, lines 19-24) *)
(* ------------------------------------------------------------------ *)

Section Payload.

(** JSON numbers are doubles; their truthiness and their [String()]
    rendering are those of the JavaScript engine. *)
Variable number : Type.
Variable numTruthy : number -> bool.
Variable numToString : number -> jsstring.

Inductive json : Type :=
| JNull
| JBool (b : bool)
| JNum (n : number)
| JStr (s : jsstring)
| JArr (items : list json)
| JObj (members : list (jsstring * json)).

(** ToBoolean. *)
Definition truthy (v : json) : bool :=
  match v with
  | JNull => false
  | JBool b => b
  | JNum n => numTruthy n
  | JStr s => nonEmpty s
  | JArr _ => true
  | JObj _ => true
  end.

(** [String(v)]: an array renders its items separated by commas, with
    [null] items rendered empty; a plain object renders as a fixed tag. *)
Fixpoint jsString (v : json) : jsstring :=
  match v with
  | JNull => lit "null"
  | JBool true => lit "true"
  | JBool false => lit "false"
  | JNum n => numToString n
  | JStr s => s
  | JArr items =>
      join (lit ",")
        (List.map (fun e => match e with JNull => [] | _ => jsString e end) items)
  | JObj _ => lit "[object Object]"
  end.

(** The members of an object in the order of the JSON text; a repeated
    key keeps its last value, as [JSON.parse] does. *)
Fixpoint lookupMember (k : jsstring) (ms : list (jsstring * json)) : option json :=
  match ms with
  | [] => None
  | (k', v) :: rest =>
      match lookupMember k rest with
      | Some w => Some w
      | None => if streq k k' then Some v else None
      end
  end.

(** [emailData?.k] for one of the keys [to], [from], [subject], [text],
    [html]: [None] is [undefined].  No prototype of a JSON value carries
    one of these names, so only an object's own member is found. *)
Definition payloadField (emailData : json) (k : string) : option json :=
  match emailData with
  | JObj ms => lookupMember (lit k) ms
  | _ => None
  end.

(** [String(x || dflt)] where [x] may be [undefined]. *)
Definition coerceOr (x : option json) (dflt : jsstring) : jsstring :=
  match x with
  | Some v => if truthy v then jsString v else dflt
  | None => dflt
  end.

(** The placeholder subject, U+0028 U+65E0 U+4E3B U+9898 U+0029. *)
Definition NO_SUBJECT : jsstring := [40; 26080; 20027; 39064; 41]%N.

Record emailFields : Type := {
  f_to : jsstring;
  f_from : jsstring;
  f_subject : jsstring;
  f_text : jsstring;
  f_html : jsstring
}.

Definition coercePayload (emailData : json) : emailFields :=
  {| f_to := coerceOr (payloadField emailData "to") [];
     f_from := coerceOr (payloadField emailData "from") [];
     f_subject := coerceOr (payloadField emailData "subject") NO_SUBJECT;
     f_text := coerceOr (payloadField emailData "text") [];
     f_html := coerceOr (payloadField emailData "html") [] |}.

End Payload.

Arguments JNull {number}.
Arguments JBool {number} b.
Arguments JStr {number} s.

(* ------------------------------------------------------------------ *)
(** ** The envelope (receiver, lines 30-70) *)
(* ------------------------------------------------------------------ *)

(** What the builder is given: the normalised addresses, the subject, the
    two bodies, and the two ambient values it reads, the date string
    ([now.toUTCString()]) and the boundary token. *)
Record envelopeInput : Type := {
  sender : jsstring;
  mailbox : jsstring;
  subject : jsstring;
  text : jsstring;
  html : jsstring;
  dateStr : jsstring;
  boundary : jsstring
}.

Definition multipartLines (i : envelopeInput) : list jsstring :=
  [ lit "From: <" ++ sender i ++ lit ">";
    lit "To: <" ++ mailbox i ++ lit ">";
    lit "Subject: " ++ subject i;
    lit "Date: " ++ dateStr i;
    lit "MIME-Version: 1.0";
    lit "Content-Type: multipart/alternative; boundary=" ++ DQ ++ boundary i ++ DQ;
    [];
    lit "--" ++ boundary i;
    lit "Content-Type: text/plain; charset=" ++ DQ ++ lit "utf-8" ++ DQ;
    lit "Content-Transfer-Encoding: 8bit";
    [];
    orStr (text i) [];
    lit "--" ++ boundary i;
    lit "Content-Type: text/html; charset=" ++ DQ ++ lit "utf-8" ++ DQ;
    lit "Content-Transfer-Encoding: 8bit";
    [];
    html i;
    lit "--" ++ boundary i ++ lit "--";
    [] ].

Definition singlePartLines (i : envelopeInput) : list jsstring :=
  [ lit "From: <" ++ sender i ++ lit ">";
    lit "To: <" ++ mailbox i ++ lit ">";
    lit "Subject: " ++ subject i;
    lit "Date: " ++ dateStr i;
    lit "MIME-Version: 1.0";
    lit "Content-Type: text/plain; charset=" ++ DQ ++ lit "utf-8" ++ DQ;
    lit "Content-Transfer-Encoding: 8bit";
    [];
    orStr (text i) [];
    [] ].

(** The [eml] string of [handleEmailReceive]. *)
Definition buildEml (i : envelopeInput) : jsstring :=
  if nonEmpty (html i)
  then join CRLF (multipartLines i)
  else join CRLF (singlePartLines i).

(* ------------------------------------------------------------------ *)
(** ** Ingestion: [handleEmailReceive] *)
(* ------------------------------------------------------------------ *)

(** The values bound to the INSERT statement, in its column order. *)
Record insertedRow : Type := {
  ins_mailbox_id : Z;
  ins_sender : jsstring;
  ins_to_addrs : jsstring;
  ins_subject : jsstring;
  ins_verification_code : option jsstring;
  ins_preview : option jsstring;
  ins_eml_content : option jsstring
}.

(** What a handler throws. *)
Inductive exn : Type := Thrown.

(** The two answers of the handler: [{ success: true }] once the row has
    been inserted, and status 500 when anything threw. *)
Inductive receiveResponse : Type :=
| ReceiveOk (row : insertedRow)
| ReceiveFailed.

Section Receiver.

Variable number : Type.
Variable numTruthy : number -> bool.
Variable numToString : number -> jsstring.

(** Collaborators that live in other modules of the repository:
    [extractEmail] (utils/common), [getOrCreateMailboxId] (db), [stripHtml]
    and [extractVerificationCode] (email/parser).  The last two may throw,
    as may the mailbox lookup. *)
Variable extractEmail : jsstring -> jsstring.
Variable getOrCreateMailboxId : jsstring -> exn + Z.
Variable stripHtml : jsstring -> jsstring.
Variable extractVerificationCode : jsstring -> jsstring -> jsstring -> exn + jsstring.

(** The INSERT statement, which may throw. *)
Variable dbInsert : insertedRow -> exn + unit.

(** The clock and the random source. *)
Variable now : jsstring.
Variable token : jsstring.

(** Lines 72-73. *)
Definition previewOf (text html : jsstring) : jsstring :=
  let previewBase := trim (replaceWsRuns false (if nonEmpty text then text else stripHtml html)) in
  slice0 120 (orStr previewBase []).

(** Lines 74-77: the [try] leaves the initial empty string in place when
    the extractor throws. *)
Definition verificationCodeOf (subject text html : jsstring) : jsstring :=
  match extractVerificationCode subject text html with
  | inr code => code
  | inl _ => []
  end.

Definition envelopeOf (f : emailFields) : envelopeInput :=
  {| sender := extractEmail (f_from f);
     mailbox := extractEmail (f_to f);
     subject := f_subject f;
     text := f_text f;
     html := f_html f;
     dateStr := now;
     boundary := lit "mf-" ++ token |}.

Definition rowOf (mailboxId : Z) (f : emailFields) : insertedRow :=
  let eml := buildEml (envelopeOf f) in
  let preview := previewOf (f_text f) (f_html f) in
  let verificationCode := verificationCodeOf (f_subject f) (f_text f) (f_html f) in
  {| ins_mailbox_id := mailboxId;
     ins_sender := extractEmail (f_from f);
     ins_to_addrs := orStr (f_to f) [];
     ins_subject := orStr (f_subject f) NO_SUBJECT;
     ins_verification_code := orNull verificationCode;
     ins_preview := orNull preview;
     ins_eml_content := orNull eml |}.

(** [body] is the outcome of [request.json()]: [inl] when the request body
    is not JSON. *)
Definition handleEmailReceive (body : exn + json number) : receiveResponse :=
  match body with
  | inl _ => ReceiveFailed
  | inr emailData =>
      let f := coercePayload numTruthy numToString emailData in
      match getOrCreateMailboxId (extractEmail (f_to f)) with
      | inl _ => ReceiveFailed
      | inr mailboxId =>
          match dbInsert (rowOf mailboxId f) with
          | inl _ => ReceiveFailed
          | inr _ => ReceiveOk (rowOf mailboxId f)
          end
      end
  end.

End Receiver.

(* ------------------------------------------------------------------ *)
(** ** JavaScript numbers as far as [parseInt] and [Math.min] need them *)
(* ------------------------------------------------------------------ *)

Inductive jsnum : Type :=
| NaN
| Fin (z : Z)
| PosInf
| NegInf.

(** [Math.min(a, b)]. *)
Definition jsMin (a b : jsnum) : jsnum :=
  match a, b with
  | NaN, _ => NaN
  | _, NaN => NaN
  | NegInf, _ => NegInf
  | _, NegInf => NegInf
  | PosInf, x => x
  | x, PosInf => x
  | Fin x, Fin y => Fin (Z.min x y)
  end.

(** [Number.isInteger(n) && n > 0]. *)
Definition isPositiveInteger (n : jsnum) : bool :=
  match n with
  | Fin z => (0 <? z)%Z
  | _ => false
  end.

Definition isDigit (c : N) : bool := ((48 <=? c) && (c <=? 57))%N.

(** The value of the longest prefix of decimal digits. *)
Fixpoint digitsValue (acc : Z) (s : jsstring) : Z :=
  match s with
  | [] => acc
  | c :: r =>
      if isDigit c then digitsValue (10 * acc + (Z.of_N c - 48)) r else acc
  end.

Definition startsWithDigit (s : jsstring) : bool :=
  match s with
  | c :: _ => isDigit c
  | [] => false
  end.

Section ParseInt.

(** The double nearest to an integer, as the engine computes it: exact up
    to 2^53, rounded beyond, infinite for the largest inputs. *)
Variable toDouble : Z -> jsnum.

(** [parseInt(s, 10)]: leading white space, an optional sign, then the
    longest run of decimal digits; [NaN] when there is none. *)
Definition parseInt10 (s : jsstring) : jsnum :=
  let s1 := trimStart s in
  let '(negative, s2) :=
    match s1 with
    | 45%N :: r => (true, r)
    | 43%N :: r => (false, r)
    | _ => (false, s1)
    end in
  if startsWithDigit s2
  then toDouble (if negative then - digitsValue 0 s2 else digitsValue 0 s2)%Z
  else NaN.

End ParseInt.

(** [s.split(sep)] for a one-character separator. *)
Fixpoint splitOn (sep : N) (s : jsstring) : list jsstring :=
  match s with
  | [] => [[]]
  | c :: r =>
      if (c =? sep)%N then [] :: splitOn sep r
      else match splitOn sep r with
           | h :: t => (c :: h) :: t
           | [] => [[c]]
           end
  end.

Definition COMMA : N := 44%N.

(* ------------------------------------------------------------------ *)
(** ** The datastore *)
(* ------------------------------------------------------------------ *)

Module Messages.
Module Row.
(** A row of the [messages] table.  [content] and [html_content] are the
    columns of the older schema. *)
Record t : Type := {
  id : Z;
  mailbox_id : Z;
  sender : jsstring;
  to_addrs : jsstring;
  subject : jsstring;
  verification_code : option jsstring;
  preview : option jsstring;
  eml_content : option jsstring;
  received_at : jsstring;
  is_read : Z;
  content : option jsstring;
  html_content : option jsstring
}.
End Row.
End Messages.

(** [SET is_read = 1] on one row. *)
Definition setRead (r : Messages.Row.t) : Messages.Row.t :=
  {| Messages.Row.id := Messages.Row.id r;
     Messages.Row.mailbox_id := Messages.Row.mailbox_id r;
     Messages.Row.sender := Messages.Row.sender r;
     Messages.Row.to_addrs := Messages.Row.to_addrs r;
     Messages.Row.subject := Messages.Row.subject r;
     Messages.Row.verification_code := Messages.Row.verification_code r;
     Messages.Row.preview := Messages.Row.preview r;
     Messages.Row.eml_content := Messages.Row.eml_content r;
     Messages.Row.received_at := Messages.Row.received_at r;
     Messages.Row.is_read := 1;
     Messages.Row.content := Messages.Row.content r;
     Messages.Row.html_content := Messages.Row.html_content r |}.

(** The statements the message routes send, with their bound values. *)
Inductive statement : Type :=
| SelectList (mailboxId : Z) (timeParam : option jsstring) (limit : jsnum)
| SelectListLegacy (mailboxId : Z) (timeParam : option jsstring) (limit : jsnum)
| SelectBatch (ids : list Z) (timeParam : option jsstring)
| SelectBatchLegacy (ids : list Z) (timeParam : option jsstring)
| SelectDetail (emailId : jsstring) (timeParam : option jsstring)
| SelectLegacyContent (emailId : jsstring)
| SelectLegacyDetail (emailId : jsstring)
| UpdateRead (emailId : jsstring).

(** The table, which generation of columns it has (a statement that names
    a missing column throws), and the statements sent so far. *)
Record db : Type := {
  hasEmlColumns : bool;
  hasLegacyColumns : bool;
  messages : list Messages.Row.t;
  sent : list statement
}.

(** Handlers run against the datastore and may throw; what was written
    before a throw stays written. *)
Definition M (A : Type) : Type := db -> (exn + A) * db.

Definition ret {A : Type} (a : A) : M A := fun s => (inr a, s).

Definition throw {A : Type} : M A := fun s => (inl Thrown, s).

Definition bind {A B : Type} (c : M A) (k : A -> M B) : M B :=
  fun s =>
    match c s with
    | (inr a, s') => k a s'
    | (inl e, s') => (inl e, s')
    end.

Definition tryCatch {A : Type} (c : M A) (handler : M A) : M A :=
  fun s =>
    match c s with
    | (inr a, s') => (inr a, s')
    | (inl _, s') => handler s'
    end.

Declare Scope db_scope.
Delimit Scope db_scope with db.
Notation "x <- c ;; k" := (bind c (fun x => k))
  (at level 61, c at next level, right associativity) : db_scope.
Notation "c ;;; k" := (bind c (fun _ => k))
  (at level 61, right associativity) : db_scope.

(** The datastore after one more statement was sent to it. *)
Definition logged (st : statement) (s : db) : db :=
  {| hasEmlColumns := hasEmlColumns s;
     hasLegacyColumns := hasLegacyColumns s;
     messages := messages s;
     sent := sent s ++ [st] |}.

(** The datastore with its table replaced. *)
Definition withRows (rows : list Messages.Row.t) (s : db) : db :=
  {| hasEmlColumns := hasEmlColumns s;
     hasLegacyColumns := hasLegacyColumns s;
     messages := rows;
     sent := sent s |}.

Definition send (st : statement) : M unit := fun s => (inr tt, logged st s).

Definition readRows : M (list Messages.Row.t) := fun s => (inr (messages s), s).

Definition writeRows (rows : list Messages.Row.t) : M unit := fun s => (inr tt, withRows rows s).

(** Throws unless the columns a statement names exist. *)
Definition requireColumns (present : db -> bool) : M unit :=
  fun s => if present s then (inr tt, s) else (inl Thrown, s).

(* ------------------------------------------------------------------ *)
(** ** The message routes of [handleEmailsApi] *)
(* ------------------------------------------------------------------ *)

(** [{ ...row, content, html_content, download }]; the batch route leaves
    [download] out. *)
Record detail : Type := {
  d_row : Messages.Row.t;
  d_content : jsstring;
  d_html_content : jsstring;
  d_download : jsstring
}.

Inductive response : Type :=
| ErrorResponse (status : Z)
| MockResponse
| JsonRows (rows : list Messages.Row.t)
| JsonDetails (items : list detail)
| JsonDetail (d : detail)
| JsonRow (row : Messages.Row.t).

(** [o || ''] on a nullable column. *)
Definition optStr (o : option jsstring) : jsstring :=
  match o with
  | Some s => s
  | None => []
  end.

Section Api.

(** [options.mockOnly] and [options.mailboxOnly]. *)
Variable isMock : bool.
Variable isMailboxOnly : bool.

(** Collaborators: the parser (email/parser), which may throw; the address
    normaliser (utils/common) and the mailbox lookup (db); the engine's
    [toLowerCase] and its rounding of integers to doubles. *)
Variable parseEmailBody : jsstring -> exn + (jsstring * jsstring).
Variable extractEmail : jsstring -> jsstring.
Variable getMailboxIdByAddress : jsstring -> exn + option Z.
Variable toLowerCase : jsstring -> jsstring.
Variable toDouble : Z -> jsnum.

(** The datastore's own semantics: how [id = ?] compares the integer
    column with the text of the path segment, how [received_at >= ?]
    compares two time stamps, and what the two list statements return
    (ORDER BY, LIMIT and, in the older one, SUBSTR). *)
Variable sqlIdEq : Z -> jsstring -> bool.
Variable sqlGe : jsstring -> jsstring -> bool.
Variable sqlList : statement -> list Messages.Row.t -> list Messages.Row.t.

(** [new Date(Date.now() - 24 * 60 * 60 * 1000).toISOString()]. *)
Variable twentyFourHoursAgo : jsstring.

Local Open Scope db_scope.

Definition timeParamOf : option jsstring :=
  if isMailboxOnly then Some twentyFourHoursAgo else None.

Definition inTime (timeParam : option jsstring) (r : Messages.Row.t) : bool :=
  match timeParam with
  | Some t => sqlGe (Messages.Row.received_at r) t
  | None => true
  end.

(** *** Statements *)

Definition selectList (mailboxId : Z) (timeParam : option jsstring) (limit : jsnum)
  : M (list Messages.Row.t) :=
  send (SelectList mailboxId timeParam limit) ;;;
  requireColumns hasEmlColumns ;;;
  rows <- readRows ;;
  ret (sqlList (SelectList mailboxId timeParam limit) rows).

Definition selectListLegacy (mailboxId : Z) (timeParam : option jsstring) (limit : jsnum)
  : M (list Messages.Row.t) :=
  send (SelectListLegacy mailboxId timeParam limit) ;;;
  requireColumns hasLegacyColumns ;;;
  rows <- readRows ;;
  ret (sqlList (SelectListLegacy mailboxId timeParam limit) rows).

Definition idIn (ids : list Z) (r : Messages.Row.t) : bool :=
  existsb (Z.eqb (Messages.Row.id r)) ids.

Definition selectBatch (ids : list Z) (timeParam : option jsstring) : M (list Messages.Row.t) :=
  send (SelectBatch ids timeParam) ;;;
  requireColumns hasEmlColumns ;;;
  rows <- readRows ;;
  ret (filter (fun r => idIn ids r && inTime timeParam r) rows).

Definition selectBatchLegacy (ids : list Z) (timeParam : option jsstring) : M (list Messages.Row.t) :=
  send (SelectBatchLegacy ids timeParam) ;;;
  requireColumns hasLegacyColumns ;;;
  rows <- readRows ;;
  ret (filter (fun r => idIn ids r && inTime timeParam r) rows).

Definition selectDetail (emailId : jsstring) (timeParam : option jsstring) : M (list Messages.Row.t) :=
  send (SelectDetail emailId timeParam) ;;;
  requireColumns hasEmlColumns ;;;
  rows <- readRows ;;
  ret (filter (fun r => sqlIdEq (Messages.Row.id r) emailId && inTime timeParam r) rows).

Definition selectLegacyContent (emailId : jsstring) : M (list Messages.Row.t) :=
  send (SelectLegacyContent emailId) ;;;
  requireColumns hasLegacyColumns ;;;
  rows <- readRows ;;
  ret (filter (fun r => sqlIdEq (Messages.Row.id r) emailId) rows).

Definition selectLegacyDetail (emailId : jsstring) : M (list Messages.Row.t) :=
  send (SelectLegacyDetail emailId) ;;;
  requireColumns hasLegacyColumns ;;;
  rows <- readRows ;;
  ret (filter (fun r => sqlIdEq (Messages.Row.id r) emailId) rows).

(** [UPDATE messages SET is_read = 1 WHERE id = ?]. *)
Definition markRead (emailId : jsstring) (rows : list Messages.Row.t) : list Messages.Row.t :=
  List.map (fun r => if sqlIdEq (Messages.Row.id r) emailId then setRead r else r) rows.

Definition updateRead (emailId : jsstring) : M unit :=
  send (UpdateRead emailId) ;;;
  rows <- readRows ;;
  writeRows (markRead emailId rows).

(** *** GET /api/emails (lines 27-77) *)

Definition listLimit (limitParam : option jsstring) : jsnum :=
  jsMin (parseInt10 toDouble (orStr (optStr limitParam) (lit "20"))) (Fin 50).

Definition isFalsyId (mailboxId : option Z) : bool :=
  match mailboxId with
  | None => true
  | Some z => (z =? 0)%Z
  end.

Definition emailsList (mailboxParam limitParam : option jsstring) : M response :=
  if negb (nonEmpty (optStr mailboxParam)) then ret (ErrorResponse 400)
  else
    tryCatch
      (if isMock then ret MockResponse
       else
         let normalized := toLowerCase (trim (extractEmail (optStr mailboxParam))) in
         match getMailboxIdByAddress normalized with
         | inl _ => throw
         | inr mailboxId =>
             if isFalsyId mailboxId then ret (JsonRows [])
             else
               let limit := listLimit limitParam in
               tryCatch
                 (results <- selectList (match mailboxId with Some z => z | None => 0 end)
                               timeParamOf limit ;;
                  ret (JsonRows results))
                 (results <- selectListLegacy (match mailboxId with Some z => z | None => 0 end)
                               timeParamOf limit ;;
                  ret (JsonRows results))
         end)
      (ret (ErrorResponse 500)).

(** *** GET /api/emails/batch (lines 80-147) *)

Definition fin (n : jsnum) : Z :=
  match n with
  | Fin z => z
  | _ => 0%Z
  end.

(** [idsParam.split(',').map(s => parseInt(s, 10)).filter(...)]. *)
Definition batchIds (idsParam : jsstring) : list Z :=
  List.map fin (filter isPositiveInteger (List.map (parseInt10 toDouble) (splitOn COMMA idsParam))).

(** Lines 113-132: the content of one row of the batch. *)
Definition batchContent (row : Messages.Row.t) : detail :=
  let eml := optStr (Messages.Row.eml_content row) in
  let parsed :=
    if nonEmpty eml
    then match parseEmailBody eml with
         | inr (t, h) => (t, h)
         | inl _ => ([], [])
         end
    else ([], []) in
  let content := fst parsed in
  let html_content := snd parsed in
  let content :=
    if negb (nonEmpty content) && negb (nonEmpty html_content) && nonEmpty eml
    then eml else content in
  let content :=
    if negb (nonEmpty content) && negb (nonEmpty html_content)
       && nonEmpty (optStr (Messages.Row.preview row))
    then optStr (Messages.Row.preview row) else content in
  {| d_row := row; d_content := content; d_html_content := html_content; d_download := [] |}.

Definition emailsBatch (ids : option jsstring) : M response :=
  tryCatch
    (let idsParam := trim (optStr ids) in
     if negb (nonEmpty idsParam) then ret (JsonRows [])
     else
       let ids := batchIds idsParam in
       if (List.length ids =? 0)%nat then ret (JsonRows [])
       else if (50 <? List.length ids)%nat then ret (ErrorResponse 400)
       else if isMock then ret MockResponse
       else
         tryCatch
           (results <- selectBatch ids timeParamOf ;;
            ret (JsonDetails (List.map batchContent results)))
           (results <- selectBatchLegacy ids timeParamOf ;;
            ret (JsonRows results)))
    (ret (ErrorResponse 500)).

(** *** GET /api/email/:id (lines 194-263) *)

Definition downloadLink (emailId : jsstring) : jsstring :=
  lit "/api/email/" ++ emailId ++ lit "/download".

(** Lines 219-253, after the row has been marked read. *)
Definition detailContent (emailId : jsstring) (row : Messages.Row.t) : M response :=
  let eml := optStr (Messages.Row.eml_content row) in
  let parsed :=
    if nonEmpty eml
    then match parseEmailBody eml with
         | inr (t, h) => (t, h)
         | inl _ => ([], [])
         end
    else ([], []) in
  let content := fst parsed in
  let html_content := snd parsed in
  let content :=
    if negb (nonEmpty content) && negb (nonEmpty html_content) && nonEmpty eml
    then eml else content in
  both <-
    (if negb (nonEmpty content) && negb (nonEmpty html_content)
     then
       tryCatch
         (fallback <- selectLegacyContent emailId ;;
          match fallback with
          | fr :: _ =>
              ret (orStr content (optStr (Messages.Row.content fr)),
                   orStr html_content (optStr (Messages.Row.html_content fr)))
          | [] => ret (orStr content [], orStr html_content [])
          end)
         (ret (content, html_content))
     else ret (content, html_content)) ;;
  let content := fst both in
  let html_content := snd both in
  let content :=
    if negb (nonEmpty content) && negb (nonEmpty html_content)
       && nonEmpty (optStr (Messages.Row.preview row))
    then optStr (Messages.Row.preview row) else content in
  ret (JsonDetail {| d_row := row; d_content := content; d_html_content := html_content;
                     d_download := if nonEmpty eml then downloadLink emailId else [] |}).

(** What the older columns hold for a message, as the single-detail route
    reads them: nothing when they are missing or the row is not found. *)
Definition legacyBody (emailId : jsstring) (s : db) : jsstring * jsstring :=
  if hasLegacyColumns s
  then match filter (fun r => sqlIdEq (Messages.Row.id r) emailId) (messages s) with
       | fr :: _ => (optStr (Messages.Row.content fr), optStr (Messages.Row.html_content fr))
       | [] => ([], [])
       end
  else ([], []).

Definition emailDetail (emailId : jsstring) : M response :=
  if isMock then ret MockResponse
  else
    tryCatch
      (results <- selectDetail emailId timeParamOf ;;
       match results with
       | [] => ret (ErrorResponse 404)
       | row :: _ =>
           updateRead emailId ;;;
           detailContent emailId row
       end)
      (results <- selectLegacyDetail emailId ;;
       match results with
       | [] => ret (ErrorResponse 404)
       | row :: _ =>
           updateRead emailId ;;;
           ret (JsonRow row)
       end).

End Api.

(* ------------------------------------------------------------------ *)
(** ** The viewer: [showEmailDetail], lines 31-34 *)
(* ------------------------------------------------------------------ *)

Section Viewer.

(** [extractCode] of app/ui-helpers. *)
Variable extractCode : jsstring -> jsstring.

(** [extractCode(email.content || email.html_content || '')]. *)
Definition extractedCode (email : detail) : jsstring :=
  extractCode (orStr (d_content email) (orStr (d_html_content email) [])).


End Viewer.

(* ------------------------------------------------------------------ *)
(** ** The extraction order of the specification *)
(* ------------------------------------------------------------------ *)

Section ExtractionOrder.

(** The scan of one field for a code: trigger-word proximity, then a
    digit run.  The specification describes it by example only, and gives
    the subject a stricter digit-run rule than the bodies. *)
Variable codeInSubject : jsstring -> jsstring.
Variable codeInBody : jsstring -> jsstring.
Variable stripHtml : jsstring -> jsstring.

(** Modelled from the spec: [extractVerificationCode] (email/parser) is not
    among the sources.  Section 4.5: search the subject first; if nothing is
    found search the text; if nothing is found search the stripped html;
    return the empty string if nothing matches. *)
Definition extractCodeSpec (subject text html : jsstring) : jsstring :=
  let inSubject := codeInSubject subject in
  if nonEmpty inSubject then inSubject
  else
    let inText := codeInBody text in
    if nonEmpty inText then inText
    else codeInBody (stripHtml html).

(** Modelled from the spec: [extractCode] (app/ui-helpers) is not among the
    sources.  Section 3 requires the display-time recomputation to use the
    identical heuristic; the viewer hands it one string of body content, so
    it is the scan of a body field. *)
Definition extractCodeAtDisplay (s : jsstring) : jsstring := codeInBody s.

End ExtractionOrder.

(* ------------------------------------------------------------------ *)
(** ** The message parser of the specification (section 4.3) *)
(* ------------------------------------------------------------------ *)

Record ParsedBody : Type := {
  pb_text : jsstring;
  pb_html : jsstring
}.

Inductive transferEncoding : Type :=
| Enc7bit
| Enc8bit
| EncBase64
| EncQuotedPrintable
| EncBinary.

Fixpoint startsWith (p s : jsstring) : bool :=
  match p, s with
  | [], _ => true
  | a :: p', b :: s' => (a =? b)%N && startsWith p' s'
  | _ :: _, [] => false
  end.

Definition asciiLower (c : N) : N :=
  if ((65 <=? c) && (c <=? 90))%N then (c + 32)%N else c.

Definition lower (s : jsstring) : jsstring := List.map asciiLower s.

Fixpoint takeWhile (p : N -> bool) (s : jsstring) : jsstring :=
  match s with
  | [] => []
  | c :: r => if p c then c :: takeWhile p r else []
  end.

(** Step 1: headers and body are separated by the first blank line, CRLF
    CRLF or a bare LF LF.  Without a blank line all is header. *)
Fixpoint splitHeadersBody (raw : jsstring) : jsstring * jsstring :=
  match raw with
  | [] => ([], [])
  | c :: r =>
      if startsWith (CRLF ++ CRLF) raw then ([], skipn 4 raw)
      else if startsWith [LF; LF] raw then ([], skipn 2 raw)
      else let (h, b) := splitHeadersBody r in (c :: h, b)
  end.

(** A final CR is part of the line terminator. *)
Definition stripCR (line : jsstring) : jsstring :=
  match rev line with
  | c :: r => if (c =? CR)%N then rev r else line
  | [] => line
  end.

Definition headerLines (block : jsstring) : list jsstring :=
  List.map stripCR (splitOn LF block).

Definition COLON : N := 58%N.
Definition SEMI : N := 59%N.

Definition notColon (c : N) : bool := negb (c =? COLON)%N.

Definition hasColon (line : jsstring) : bool := existsb (N.eqb COLON) line.

(** Step 2: a header is looked up by its name, whatever its case. *)
Fixpoint lookupHeader (name : jsstring) (lines : list jsstring) : option jsstring :=
  match lines with
  | [] => None
  | line :: rest =>
      if hasColon line && streq (lower (trim (takeWhile notColon line))) name
      then Some (trim (tl (dropWhile notColon line)))
      else lookupHeader name rest
  end.

(** The media type of a Content-Type value: what precedes the first
    semicolon. *)
Definition mediaType (contentType : jsstring) : jsstring :=
  lower (trim (takeWhile (fun c => negb (c =? SEMI)%N) contentType)).

(** The text after the first occurrence of [key], whatever its case. *)
Fixpoint afterKey (key : jsstring) (s : jsstring) : option jsstring :=
  match s with
  | [] => None
  | _ :: r =>
      if startsWith key (lower s) then Some (skipn (List.length key) s)
      else afterKey key r
  end.

(** A parameter value, quoted or bare. *)
Definition paramValue (s : jsstring) : jsstring :=
  match s with
  | 34%N :: r => takeWhile (fun c => negb (c =? 34)%N) r
  | _ => takeWhile (fun c => negb ((c =? SEMI)%N || isWhite c)) s
  end.

Definition paramOf (key : string) (contentType : jsstring) : option jsstring :=
  match afterKey (lit key ++ lit "=") contentType with
  | Some r => Some (paramValue r)
  | None => None
  end.

Definition encodingOf (lines : list jsstring) : transferEncoding :=
  match lookupHeader (lit "content-transfer-encoding") lines with
  | Some v =>
      let e := lower v in
      if streq e (lit "base64") then EncBase64
      else if streq e (lit "quoted-printable") then EncQuotedPrintable
      else if streq e (lit "7bit") then Enc7bit
      else if streq e (lit "binary") then EncBinary
      else Enc8bit
  | None => Enc8bit
  end.

(** The pieces of [s] between the occurrences of [delim]; [skip] counts
    the characters of a delimiter still to pass over. *)
Fixpoint splitOnDelimiter (skip : nat) (delim s : jsstring) : list jsstring :=
  match s with
  | [] => [[]]
  | c :: r =>
      match skip with
      | S k => splitOnDelimiter k delim r
      | O =>
          if startsWith delim s
          then [] :: splitOnDelimiter (List.length delim - 1) delim r
          else match splitOnDelimiter 0 delim r with
               | h :: t => (c :: h) :: t
               | [] => [[c]]
               end
      end
  end.

(** The line break that ends the delimiter line, and the one that
    precedes the next delimiter, are not part of the part. *)
Definition dropLeadingBreak (s : jsstring) : jsstring :=
  match s with
  | 13%N :: 10%N :: r => r
  | 10%N :: r => r
  | _ => s
  end.

Definition dropTrailingBreak (s : jsstring) : jsstring :=
  match rev s with
  | 10%N :: 13%N :: r => rev r
  | 10%N :: r => rev r
  | _ => s
  end.

(** The parts up to the closing delimiter; the preamble and the epilogue
    are dropped. *)
Fixpoint partsUntilClose (pieces : list jsstring) : list jsstring :=
  match pieces with
  | [] => []
  | p :: rest =>
      if startsWith (lit "--") p then []
      else dropTrailingBreak (dropLeadingBreak p) :: partsUntilClose rest
  end.

Section Parser.

(** The decoders of the two transfer encodings, given the charset. *)
Variable decodeBase64 : jsstring -> jsstring -> jsstring.
Variable decodeQuotedPrintable : jsstring -> jsstring -> jsstring.

Definition charsetOf (contentType : option jsstring) : jsstring :=
  match contentType with
  | Some v => match paramOf "charset" v with
              | Some c => lower c
              | None => lit "utf-8"
              end
  | None => lit "utf-8"
  end.

Definition decodeBody (enc : transferEncoding) (charset body : jsstring) : jsstring :=
  match enc with
  | EncBase64 => decodeBase64 charset body
  | EncQuotedPrintable => decodeQuotedPrintable charset body
  | _ => body
  end.

(** One entity that is not multipart: its decoded body, and whether it
    is html. *)
Definition leaf (entity : jsstring) : bool * jsstring :=
  let (block, body) := splitHeadersBody entity in
  let lines := headerLines block in
  let contentType := lookupHeader (lit "content-type") lines in
  let decoded := decodeBody (encodingOf lines) (charsetOf contentType) body in
  (streq (mediaType (optStr contentType)) (lit "text/html"), decoded).

(** The first part of each kind is kept. *)
Fixpoint firstOfKind (isHtml : bool) (leaves : list (bool * jsstring)) : jsstring :=
  match leaves with
  | [] => []
  | (h, body) :: rest => if Bool.eqb h isHtml then body else firstOfKind isHtml rest
  end.

Definition isTextual (part : jsstring) : bool :=
  let lines := headerLines (fst (splitHeadersBody part)) in
  let mt := mediaType (optStr (lookupHeader (lit "content-type") lines)) in
  negb (nonEmpty mt) || startsWith (lit "text/") mt.

(** Modelled from the spec: [parseEmailBody] (email/parser) is not among the
    sources.  Section 4.3: split the headers from the body at the first
    blank line; read the Content-Type; a multipart body is cut at its
    delimiters and each part is decoded by its own headers and classified
    as text or html, the first of each kind being kept; any other body is
    decoded and classified by the top-level type, text/plain when absent. *)
Definition parseBody (raw : jsstring) : ParsedBody :=
  let (block, body) := splitHeadersBody raw in
  let lines := headerLines block in
  let contentType := lookupHeader (lit "content-type") lines in
  let boundary :=
    match contentType with
    | Some v => if startsWith (lit "multipart/") (mediaType v)
                then paramOf "boundary" v else None
    | None => None
    end in
  match boundary with
  | Some b =>
      let pieces := splitOnDelimiter 0 (lit "--" ++ b) body in
      let leaves := List.map leaf (filter isTextual (partsUntilClose (tl pieces))) in
      {| pb_text := firstOfKind false leaves; pb_html := firstOfKind true leaves |}
  | None =>
      let (isHtml, decoded) := leaf raw in
      if isHtml then {| pb_text := []; pb_html := decoded |}
      else {| pb_text := decoded; pb_html := [] |}
  end.

End Parser.

(** Line endings normalised: every CRLF becomes LF, and the line breaks
    that end the string are dropped. *)
Fixpoint crlfToLf (s : jsstring) : jsstring :=
  match s with
  | [] => []
  | c :: r =>
      match r with
      | d :: r' => if (c =? CR)%N && (d =? LF)%N then crlfToLf r else c :: crlfToLf r
      | [] => [c]
      end
  end.

Definition normalizeEol (s : jsstring) : jsstring :=
  rev (dropWhile (N.eqb LF) (rev (crlfToLf s))).

(** No line break at all: what a header field must be to stay one line. *)
Definition oneLine (s : jsstring) : bool :=
  forallb (fun c => negb ((c =? CR)%N || (c =? LF)%N)) s.

(* ------------------------------------------------------------------ *)
(** ** Lines *)
(* ------------------------------------------------------------------ *)

(** A line with its CRLF terminator. *)
Definition ln (s : jsstring) : jsstring := s ++ CRLF.

(** Every LF of [s] directly follows a CR; [afterCR] tells whether the
    character before [s] is a CR. *)
Fixpoint noBareLF (afterCR : bool) (s : jsstring) : bool :=
  match s with
  | [] => true
  | c :: r => if (c =? LF)%N then afterCR && noBareLF false r else noBareLF (c =? CR)%N r
  end.

Definition endsWithCRLF (s : jsstring) : bool :=
  match rev s with
  | 10%N :: 13%N :: _ => true
  | _ => false
  end.

(** Every line of [s], a line ending at each LF, is terminated by CRLF,
    the last one included. *)
Definition everyLineCRLF (s : jsstring) : bool :=
  noBareLF false s && endsWithCRLF s.

(** The strings an envelope is assembled from. *)
Definition suppliedStrings (i : envelopeInput) : list jsstring :=
  [sender i; mailbox i; subject i; text i; html i; dateStr i; boundary i].

(** One part of a multipart body as it appears on the wire: the delimiter
    line, the part's two headers, a blank line and the body. *)
Definition wirePart (boundary mediaType body : jsstring) : jsstring :=
  ln (lit "--" ++ boundary)
  ++ ln (lit "Content-Type: " ++ mediaType ++ lit "; charset=" ++ DQ ++ lit "utf-8" ++ DQ)
  ++ ln (lit "Content-Transfer-Encoding: 8bit")
  ++ ln []
  ++ ln body.

(** The five headers every envelope starts with. *)
Definition commonHeaders (i : envelopeInput) : jsstring :=
  ln (lit "From: <" ++ sender i ++ lit ">")
  ++ ln (lit "To: <" ++ mailbox i ++ lit ">")
  ++ ln (lit "Subject: " ++ subject i)
  ++ ln (lit "Date: " ++ dateStr i)
  ++ ln (lit "MIME-Version: 1.0").

(** ** Words *)

(** The maximal runs of characters that are not white space, in order;
    [cur] is the word being read. *)
Fixpoint wordsFrom (cur : jsstring) (s : jsstring) : list jsstring :=
  match s with
  | [] => match cur with [] => [] | _ :: _ => [cur] end
  | c :: r =>
      if isWhite c
      then match cur with
           | [] => wordsFrom [] r
           | _ :: _ => cur :: wordsFrom [] r
           end
      else wordsFrom (cur ++ [c]) r
  end.

Definition wsWords (s : jsstring) : list jsstring := wordsFrom [] s.

(** The header lines of a single-part envelope: the first seven elements
    of [singlePartLines]. *)
Definition singlePartHeaders (i : envelopeInput) : list jsstring :=
  [ lit "From: <" ++ sender i ++ lit ">";
    lit "To: <" ++ mailbox i ++ lit ">";
    lit "Subject: " ++ subject i;
    lit "Date: " ++ dateStr i;
    lit "MIME-Version: 1.0";
    lit "Content-Type: text/plain; charset=" ++ DQ ++ lit "utf-8" ++ DQ;
    lit "Content-Transfer-Encoding: 8bit" ].

(** ** Sample inputs *)

Definition sampleBoth : envelopeInput :=
  {| sender := lit "alice@example.com";
     mailbox := lit "box@freemail.test";
     subject := lit "Your code is 384920";
     text := lit "Hello";
     html := lit "<b>Hi</b>";
     dateStr := lit "Tue, 03 Nov 2026 08:00:00 GMT";
     boundary := lit "mf-0b5c" |}.

Definition samplePlain : envelopeInput :=
  {| sender := lit "alice@example.com";
     mailbox := lit "box@freemail.test";
     subject := lit "Your code is 384920";
     text := lit "Hello";
     html := [];
     dateStr := lit "Tue, 03 Nov 2026 08:00:00 GMT";
     boundary := lit "mf-0b5c" |}.

(** A text body whose two lines are separated by a bare LF, as JSON
    payloads usually carry them. *)
Definition sampleBareLF : envelopeInput :=
  {| sender := lit "alice@example.com";
     mailbox := lit "box@freemail.test";
     subject := lit "Hi";
     text := lit "a" ++ [LF] ++ lit "b";
     html := [];
     dateStr := lit "Tue, 03 Nov 2026 08:00:00 GMT";
     boundary := lit "mf-0b5c" |}.

(** A payload as a sender could post it: a display name around the
    recipient, the number 0 as subject, a number as text, and no html. *)
Definition samplePayload : json Z :=
  JObj [ (lit "to", JStr (lit "Box <box@freemail.test>"));
         (lit "from", JStr (lit "alice@example.com"));
         (lit "subject", JNum 0%Z);
         (lit "text", JNum 384920%Z) ].

(** Stand-ins for the collaborators, to run the handler on the samples:
    integers print in decimal, addresses pass through unchanged, markup
    is left as it is. *)
Definition sampleDigits (z : Z) : jsstring :=
  lit (NilEmpty.string_of_int (Z.to_int z)).

Definition sampleMailboxId (_ : jsstring) : exn + Z := inr 7%Z.

Definition sampleInsert (_ : insertedRow) : exn + unit := inr tt.


Definition extractorFindsNothing (_ _ _ : jsstring) : exn + jsstring := inr [].

(** ** Frames and outcomes of the read path *)

(** Two rows that agree on every column but [is_read]. *)
Definition sameButRead (r r' : Messages.Row.t) : Prop :=
  Messages.Row.id r' = Messages.Row.id r
  /\ Messages.Row.mailbox_id r' = Messages.Row.mailbox_id r
  /\ Messages.Row.sender r' = Messages.Row.sender r
  /\ Messages.Row.to_addrs r' = Messages.Row.to_addrs r
  /\ Messages.Row.subject r' = Messages.Row.subject r
  /\ Messages.Row.verification_code r' = Messages.Row.verification_code r
  /\ Messages.Row.preview r' = Messages.Row.preview r
  /\ Messages.Row.eml_content r' = Messages.Row.eml_content r
  /\ Messages.Row.received_at r' = Messages.Row.received_at r
  /\ Messages.Row.content r' = Messages.Row.content r
  /\ Messages.Row.html_content r' = Messages.Row.html_content r.

(** A detail read that answered with the message. *)
Definition isSuccess (r : response) : bool :=
  match r with
  | JsonDetail _ => true
  | JsonRow _ => true
  | MockResponse => true
  | _ => false
  end.


(** What the parser made of a blob: nothing, by returning two empty
    strings or by throwing. *)
Definition parsesToNothing (parse : jsstring -> exn + (jsstring * jsstring))
    (eml : jsstring) : Prop :=
  match parse eml with
  | inr (t, h) => t = [] /\ h = []
  | inl _ => True
  end.

(** ** A sample datastore *)

(** The datastore's comparisons, for the samples: an id equals the text
    that prints it in decimal, and time stamps of one format compare as
    their characters do. *)
Definition sampleSqlIdEq (z : Z) (s : jsstring) : bool := streq (sampleDigits z) s.

Fixpoint sampleSqlGe (a b : jsstring) : bool :=
  match a, b with
  | _, [] => true
  | [], _ :: _ => false
  | x :: a', y :: b' => if (x =? y)%N then sampleSqlGe a' b' else (y <? x)%N
  end.

(** The parser of the specification with transfer decoders that change
    nothing, which is all the 8bit samples need. *)
Definition sampleParse (raw : jsstring) : exn + (jsstring * jsstring) :=
  let p := parseBody (fun _ b => b) (fun _ b => b) raw in
  inr (pb_text p, pb_html p).

(** A parser that gives up on everything. *)
Definition parseThrows (_ : jsstring) : exn + (jsstring * jsstring) := inl Thrown.

(** Row 1 was stored by [handleEmailReceive]; row 2 predates the
    [eml_content] column and keeps its body in the older columns. *)
Definition sampleRow1 : Messages.Row.t :=
  {| Messages.Row.id := 1;
     Messages.Row.mailbox_id := 7;
     Messages.Row.sender := lit "alice@example.com";
     Messages.Row.to_addrs := lit "box@freemail.test";
     Messages.Row.subject := lit "Your code is 384920";
     Messages.Row.verification_code := Some (lit "384920");
     Messages.Row.preview := Some (lit "Hello");
     Messages.Row.eml_content := Some (buildEml samplePlain);
     Messages.Row.received_at := lit "2026-11-03 08:00:00";
     Messages.Row.is_read := 0;
     Messages.Row.content := None;
     Messages.Row.html_content := None |}.

Definition sampleRow2 : Messages.Row.t :=
  {| Messages.Row.id := 2;
     Messages.Row.mailbox_id := 7;
     Messages.Row.sender := lit "bob@example.com";
     Messages.Row.to_addrs := lit "box@freemail.test";
     Messages.Row.subject := lit "Minutes";
     Messages.Row.verification_code := None;
     Messages.Row.preview := Some (lit "See the attached");
     Messages.Row.eml_content := None;
     Messages.Row.received_at := lit "2026-11-03 09:00:00";
     Messages.Row.is_read := 0;
     Messages.Row.content := Some (lit "See the attached minutes of the meeting.");
     Messages.Row.html_content := None |}.

Definition sampleDb : db :=
  {| hasEmlColumns := true;
     hasLegacyColumns := true;
     messages := [sampleRow1; sampleRow2];
     sent := [] |}.

(** The single-detail route and the batch route on the samples. *)
Definition sampleDetail (parse : jsstring -> exn + (jsstring * jsstring)) : jsstring -> M response :=
  emailDetail false false parse sampleSqlIdEq sampleSqlGe (lit "2026-11-02T08:00:00.000Z").



(** A subject that carries a blank line of its own. *)
Definition sampleInjected : envelopeInput :=
  {| sender := lit "alice@example.com";
     mailbox := lit "box@freemail.test";
     subject := lit "Hi" ++ CRLF ++ CRLF ++ lit "Injected";
     text := lit "Hello";
     html := [];
     dateStr := lit "Tue, 03 Nov 2026 08:00:00 GMT";
     boundary := lit "mf-0b5c" |}.

(** ** The message as the viewer receives it *)

(** The answer of the detail route for a message whose two bodies come
    back from the read path unchanged; [code] is the persisted
    verification code. *)
Definition displayedMessage (code : option jsstring) (subject text html : jsstring) : detail :=
  {| d_row :=
       {| Messages.Row.id := 1;
          Messages.Row.mailbox_id := 7;
          Messages.Row.sender := [];
          Messages.Row.to_addrs := [];
          Messages.Row.subject := subject;
          Messages.Row.verification_code := code;
          Messages.Row.preview := None;
          Messages.Row.eml_content := None;
          Messages.Row.received_at := [];
          Messages.Row.is_read := 1;
          Messages.Row.content := None;
          Messages.Row.html_content := None |};
     d_content := text;
     d_html_content := html;
     d_download := [] |}.

(** A scan to run the samples with: the first maximal run of four to
    eight decimal digits. *)
Definition isCodeLength (cur : jsstring) : bool :=
  (4 <=? List.length cur)%nat && (List.length cur <=? 8)%nat.

Fixpoint firstDigitRun (cur : jsstring) (s : jsstring) : jsstring :=
  match s with
  | [] => if isCodeLength cur then cur else []
  | c :: r =>
      if isDigit c then firstDigitRun (cur ++ [c]) r
      else if isCodeLength cur then cur else firstDigitRun [] r
  end.

Definition sampleScan (s : jsstring) : jsstring := firstDigitRun [] s.

(* ------------------------------------------------------------------ *)
(** ** The remaining routes of [handleEmailsApi] and its dispatch *)
(* ------------------------------------------------------------------ *)

(** The statements of the clearing, download and deletion routes. *)
Inductive laterStatement : Type :=
| DeleteMailbox (mailboxId : Z)
| SelectDownload (emailId : jsstring)
| DeleteMessage (emailId : jsstring).

(** The datastore together with the statements of these routes. *)
Record store : Type := {
  table : db;
  alsoSent : list laterStatement
}.

Definition R (A : Type) : Type := store -> (exn + A) * store.

Definition retR {A : Type} (a : A) : R A := fun st => (inr a, st).

Definition bindR {A B : Type} (c : R A) (k : A -> R B) : R B :=
  fun st =>
    match c st with
    | (inr a, st') => k a st'
    | (inl e, st') => (inl e, st')
    end.

Definition tryCatchR {A : Type} (c : R A) (handler : R A) : R A :=
  fun st =>
    match c st with
    | (inr a, st') => (inr a, st')
    | (inl _, st') => handler st'
    end.

(** A route of the first kind run on the larger state. *)
Definition liftM {A : Type} (c : M A) : R A :=
  fun st =>
    let (r, s') := c (table st) in
    (r, {| table := s'; alsoSent := alsoSent st |}).

Definition sendLater (q : laterStatement) : R unit :=
  fun st => (inr tt, {| table := table st; alsoSent := alsoSent st ++ [q] |}).

Declare Scope route_scope.
Delimit Scope route_scope with route.
Notation "x <- c ;; k" := (bindR c (fun x => k))
  (at level 61, c at next level, right associativity) : route_scope.
Notation "c ;;; k" := (bindR c (fun _ => k))
  (at level 61, right associativity) : route_scope.

(** What the routes answer: an answer of the list, batch and detail
    routes or an error answer; [{ success, deletedCount }];
    [{ success, deleted, message }]; the raw message as a file with its
    Content-Disposition header. *)
Inductive apiResponse : Type :=
| Answer (r : response)
| ClearedJson (deletedCount : nat)
| DeletedJson (deleted : bool)
| EmlFile (disposition : jsstring) (body : jsstring).

Definition SLASH : N := 47%N.
Definition UNDERSCORE : N := 95%N.

(** [s.endsWith(p)]. *)
Definition endsWith (p s : jsstring) : bool := startsWith (rev p) (rev s).

(** [path.split('/')[3]]; [None] is [undefined]. *)
Definition pathSegment3 (path : jsstring) : option jsstring :=
  nth_error (splitOn SLASH path) 3.

(** The characters the file name of a download keeps: letters and digits
    of ASCII, the code units U+4E00 to U+9FA5, the dot, the underscore and
    the hyphen. *)
Definition isFileNameChar (c : N) : bool :=
  ((97 <=? c) && (c <=? 122) || (65 <=? c) && (c <=? 90)
   || (48 <=? c) && (c <=? 57) || (19968 <=? c) && (c <=? 40869)
   || (c =? 46) || (c =? UNDERSCORE) || (c =? 45))%N.

(** The name [(subject || 'email') + '.eml'] with every other character
    replaced by an underscore. *)
Definition downloadFileName (subject : jsstring) : jsstring :=
  List.map (fun c => if isFileNameChar c then c else UNDERSCORE)
    (orStr subject (lit "email") ++ lit ".eml").

Definition contentDisposition (filename : jsstring) : jsstring :=
  lit "attachment; filename=" ++ DQ ++ filename ++ DQ.

Definition isHexDigit (c : N) : bool :=
  isDigit c || ((97 <=? c) && (c <=? 102))%N || ((65 <=? c) && (c <=? 70))%N.

Definition hexDigit (c : N) : Z :=
  if isDigit c then Z.of_N c - 48
  else if ((97 <=? c) && (c <=? 102))%N then Z.of_N c - 87
  else Z.of_N c - 55.

Fixpoint hexValue (acc : Z) (s : jsstring) : Z :=
  match s with
  | [] => acc
  | c :: r => if isHexDigit c then hexValue (16 * acc + hexDigit c) r else acc
  end.

Definition startsWithHexDigit (s : jsstring) : bool :=
  match s with
  | c :: _ => isHexDigit c
  | [] => false
  end.

Definition signed (negative : bool) (z : Z) : Z := if negative then (- z)%Z else z.

(** An optional sign in front of the digits. *)
Definition splitSign (s : jsstring) : bool * jsstring :=
  match s with
  | c :: r => if (c =? 45)%N then (true, r) else if (c =? 43)%N then (false, r) else (false, s)
  | [] => (false, s)
  end.

Definition hasHexPrefix (s : jsstring) : bool :=
  match s with
  | z :: x :: _ => (z =? 48)%N && ((x =? 120) || (x =? 88))%N
  | _ => false
  end.

(** [Number.isInteger(n)]. *)
Definition isIntegerNum (n : jsnum) : bool :=
  match n with
  | Fin _ => true
  | _ => false
  end.

Section Routes.

Variable isMock : bool.
Variable isMailboxOnly : bool.
Variable parseEmailBody : jsstring -> exn + (jsstring * jsstring).
Variable extractEmail : jsstring -> jsstring.
Variable getMailboxIdByAddress : jsstring -> exn + option Z.
Variable toLowerCase : jsstring -> jsstring.
Variable toDouble : Z -> jsnum.
Variable sqlIdEq : Z -> jsstring -> bool.
Variable sqlGe : jsstring -> jsstring -> bool.
Variable sqlList : statement -> list Messages.Row.t -> list Messages.Row.t.
Variable twentyFourHoursAgo : jsstring.

Local Open Scope route_scope.

(** [parseInt(s)] with no radix: as [parseInt(s, 10)], except that a
    [0x] or [0X] after the sign switches to hexadecimal digits. *)
Definition parseIntAuto (s : jsstring) : jsnum :=
  let (negative, s2) := splitSign (trimStart s) in
  if hasHexPrefix s2
  then (if startsWithHexDigit (skipn 2 s2)
        then toDouble (signed negative (hexValue 0 (skipn 2 s2)))
        else NaN)
  else (if startsWithDigit s2
        then toDouble (signed negative (digitsValue 0 s2))
        else NaN).

Definition readTable : R (list Messages.Row.t) := fun st => (inr (messages (table st)), st).

Definition writeTable (rows : list Messages.Row.t) : R unit :=
  fun st => (inr tt, {| table := withRows rows (table st); alsoSent := alsoSent st |}).

(** [DELETE FROM messages WHERE mailbox_id = ?]; the answer is
    [meta.changes], the number of rows deleted. *)
Definition deleteMailbox (mailboxId : Z) : R nat :=
  sendLater (DeleteMailbox mailboxId) ;;;
  rows <- readTable ;;
  writeTable (filter (fun r => negb (Messages.Row.mailbox_id r =? mailboxId)%Z) rows) ;;;
  retR (List.length (filter (fun r => (Messages.Row.mailbox_id r =? mailboxId)%Z) rows)).

(** [DELETE FROM messages WHERE id = ?]. *)
Definition deleteMessage (emailId : jsstring) : R nat :=
  sendLater (DeleteMessage emailId) ;;;
  rows <- readTable ;;
  writeTable (filter (fun r => negb (sqlIdEq (Messages.Row.id r) emailId)) rows) ;;;
  retR (List.length (filter (fun r => sqlIdEq (Messages.Row.id r) emailId) rows)).

(** [SELECT subject, eml_content, received_at FROM messages WHERE id = ?],
    which names a column of the newer schema. *)
Definition selectDownload (emailId : jsstring) : R (list Messages.Row.t) :=
  sendLater (SelectDownload emailId) ;;;
  fun st =>
    if hasEmlColumns (table st)
    then (inr (filter (fun r => sqlIdEq (Messages.Row.id r) emailId) (messages (table st))), st)
    else (inl Thrown, st).

(** Lines 150-174: DELETE /api/emails. *)
Definition clearMailbox (mailboxParam : option jsstring) : R apiResponse :=
  if isMock then retR (Answer (ErrorResponse 403))
  else if negb (nonEmpty (optStr mailboxParam)) then retR (Answer (ErrorResponse 400))
  else
    tryCatchR
      (let normalized := toLowerCase (trim (extractEmail (optStr mailboxParam))) in
       match getMailboxIdByAddress normalized with
       | inl _ => fun st => (inl Thrown, st)
       | inr mailboxId =>
           if isFalsyId mailboxId then retR (ClearedJson 0)
           else
             deletedCount <- deleteMailbox (match mailboxId with Some z => z | None => 0%Z end) ;;
             retR (ClearedJson deletedCount)
       end)
      (retR (Answer (ErrorResponse 500))).

(** Lines 177-191: GET /api/email/:id/download.  The SELECT is outside
    the [try], so its failure is thrown to the caller. *)
Definition downloadEml (emailId : jsstring) : R apiResponse :=
  if isMock then retR (Answer (ErrorResponse 403))
  else
    results <- selectDownload emailId ;;
    match results with
    | [] => retR (Answer (ErrorResponse 404))
    | row :: _ =>
        if negb (nonEmpty (optStr (Messages.Row.eml_content row))) then retR (Answer (ErrorResponse 404))
        else
          retR (EmlFile (contentDisposition (downloadFileName (Messages.Row.subject row)))
                        (optStr (Messages.Row.eml_content row)))
    end.

(** Lines 266-287: DELETE /api/email/:id. *)
Definition deleteEmail (emailId : option jsstring) : R apiResponse :=
  if isMock then retR (Answer (ErrorResponse 403))
  else if negb (nonEmpty (optStr emailId)) || negb (isIntegerNum (parseIntAuto (optStr emailId)))
  then retR (Answer (ErrorResponse 400))
  else
    tryCatchR
      (changes <- deleteMessage (optStr emailId) ;;
       retR (DeletedJson (0 <? changes)%nat))
      (retR (Answer (ErrorResponse 500))).

(** The request as the handler reads it: the method, the path, and the
    three query parameters it looks up. *)
Record request : Type := {
  method : jsstring;
  path : jsstring;
  q_mailbox : option jsstring;
  q_limit : option jsstring;
  q_ids : option jsstring
}.

Definition answered (c : M response) : R (option apiResponse) :=
  r <- liftM c ;; retR (Some (Answer r)).

Definition routed (c : R apiResponse) : R (option apiResponse) :=
  r <- c ;; retR (Some r).

(** [handleEmailsApi]: the routes in the order of the source; [None] is
    the [null] of a request that matches none. *)
Definition handleEmailsApi (req : request) : R (option apiResponse) :=
  if streq (path req) (lit "/api/emails") && streq (method req) (lit "GET")
  then answered (emailsList isMock isMailboxOnly extractEmail getMailboxIdByAddress
                   toLowerCase toDouble sqlList twentyFourHoursAgo
                   (q_mailbox req) (q_limit req))
  else if streq (path req) (lit "/api/emails/batch") && streq (method req) (lit "GET")
  then answered (emailsBatch isMock isMailboxOnly parseEmailBody toDouble sqlGe
                   twentyFourHoursAgo (q_ids req))
  else if streq (method req) (lit "DELETE") && streq (path req) (lit "/api/emails")
  then routed (clearMailbox (q_mailbox req))
  else if streq (method req) (lit "GET") && startsWith (lit "/api/email/") (path req)
          && endsWith (lit "/download") (path req)
  then routed (downloadEml (optStr (pathSegment3 (path req))))
  else if streq (method req) (lit "GET") && startsWith (lit "/api/email/") (path req)
  then answered (emailDetail isMock isMailboxOnly parseEmailBody sqlIdEq sqlGe
                   twentyFourHoursAgo (optStr (pathSegment3 (path req))))
  else if streq (method req) (lit "DELETE") && startsWith (lit "/api/email/") (path req)
  then routed (deleteEmail (pathSegment3 (path req)))
  else retR None.

End Routes.

(* ------------------------------------------------------------------ *)
(** ** The viewer: [copyFromEmailList] and [prefetchEmails] *)
(* ------------------------------------------------------------------ *)

Definition LT_SIGN : N := 60%N.
Definition GT_SIGN : N := 62%N.

(** The position of the first [>] of [s]. *)
Fixpoint closingAt (s : jsstring) : option nat :=
  match s with
  | [] => None
  | c :: r => if (c =? GT_SIGN)%N then Some 0%nat else option_map S (closingAt r)
  end.

(** How many characters a match of [<[^>]+>] takes after its [<]: at least
    one character other than [>], then the [>]. *)
Definition tagRest (s : jsstring) : option nat :=
  match closingAt s with
  | Some (S n) => Some (S (S n))
  | _ => None
  end.

(** [s.replace(/<[^>]+>/g, ' ')]; [skip] counts the characters of a
    match still to pass over. *)
Fixpoint replaceTags (skip : nat) (s : jsstring) : jsstring :=
  match s with
  | [] => []
  | c :: r =>
      match skip with
      | S k => replaceTags k r
      | O =>
          if (c =? LT_SIGN)%N
          then match tagRest r with
               | Some n => SPACE :: replaceTags n r
               | None => c :: replaceTags 0 r
               end
          else c :: replaceTags 0 r
      end
  end.

(** Line 247: [email.content || email.html_content?.replace(...) || ''],
    and line 249: its first 500 characters. *)
Definition textToCopy (email : detail) : jsstring :=
  slice0 500 (orStr (d_content email) (orStr (replaceTags 0 (d_html_content email)) [])).

Section ViewerCache.

(** The cache of app/email-list and the request for one message,
    [api('/api/email/' + id)] followed by [r.json()], which may throw. *)
Variable cache : Type.
Variable getEmailFromCache : cache -> Z -> option detail.
Variable setEmailCache : cache -> Z -> detail -> cache.
Variable fetchDetail : Z -> exn + detail.

(** The loop of [prefetchEmails] over [top]: the cache it leaves and the
    ids it requested, in order.  A failed request is swallowed. *)
Fixpoint prefetchLoop (top : list Z) (c : cache) : cache * list Z :=
  match top with
  | [] => (c, [])
  | id :: rest =>
      match getEmailFromCache c id with
      | Some _ => prefetchLoop rest c
      | None =>
          let c' := match fetchDetail id with
                    | inr d => setEmailCache c id d
                    | inl _ => c
                    end in
          let (c'', requested) := prefetchLoop rest c' in
          (c'', id :: requested)
      end
  end.

(** [prefetchEmails(emails, api)], on the ids of [emails]. *)
Definition prefetchEmails (ids : list Z) (c : cache) : cache * list Z :=
  prefetchLoop (firstn 5 ids) c.

(** [copyFromEmailList]: what is written to the clipboard, the cache
    afterwards and the ids requested.  [code] is [btn.dataset.code]. *)
Definition copyFromEmailList (code : option jsstring) (id : Z) (c : cache)
  : (exn + jsstring) * cache * list Z :=
  if nonEmpty (optStr code) then (inr (optStr code), c, [])
  else
    match getEmailFromCache c id with
    | Some email => (inr (textToCopy email), c, [])
    | None =>
        match fetchDetail id with
        | inr email => (inr (textToCopy email), setEmailCache c id email, [id])
        | inl e => (inl e, c, [id])
        end
    end.

End ViewerCache.

(** A cache for the samples: the entries, newest first. *)
Definition sampleCacheGet (c : list (Z * detail)) (id : Z) : option detail :=
  match find (fun e => (fst e =? id)%Z) c with
  | Some e => Some (snd e)
  | None => None
  end.

Definition sampleCacheSet (c : list (Z * detail)) (id : Z) (d : detail) : list (Z * detail) :=
  (id, d) :: c.

(** White space occurs in [s] only as single spaces; [afterSpace] tells
    that the character before [s] is a space, or that [s] starts the
    string, where no space may stand either. *)
Fixpoint singleSpaced (afterSpace : bool) (s : jsstring) : bool :=
  match s with
  | [] => true
  | c :: r =>
      if isWhite c
      then (c =? SPACE)%N && negb afterSpace && singleSpaced true r
      else singleSpaced false r
  end.

(** The ids a batch statement binds. *)
Definition batchIdsOf (st : statement) : option (list Z) :=
  match st with
  | SelectBatch ids _ => Some ids
  | SelectBatchLegacy ids _ => Some ids
  | _ => None
  end.

Definition notNil {A : Type} (l : list A) : bool :=
  match l with
  | [] => false
  | _ :: _ => true
  end.

(** Whether a detail read reaches its UPDATE: outside the demonstration
    mode, when the SELECT of the schema at hand finds the message. *)
Definition detailWrites (isMock isMailboxOnly : bool) (sqlIdEq : Z -> jsstring -> bool)
    (sqlGe : jsstring -> jsstring -> bool) (twentyFourHoursAgo emailId : jsstring)
    (s : db) : bool :=
  negb isMock
  && (if hasEmlColumns s
      then notNil (filter (fun r => sqlIdEq (Messages.Row.id r) emailId
                                    && inTime sqlGe (timeParamOf isMailboxOnly twentyFourHoursAgo) r)
                          (messages s))
      else hasLegacyColumns s
           && notNil (filter (fun r => sqlIdEq (Messages.Row.id r) emailId) (messages s))).

(** How many double quotes a string holds. *)
Definition countDQ (s : jsstring) : nat :=
  List.length (filter (N.eqb 34%N) s).

(** No match of [<[^>]+>] starts anywhere in [s]. *)
Fixpoint noTags (s : jsstring) : bool :=
  match s with
  | [] => true
  | c :: r =>
      (if (c =? LT_SIGN)%N
       then match tagRest r with
            | Some _ => false
            | None => true
            end
       else true)
      && noTags r
  end.

(** The fields of a payload that names none of them. *)
Definition defaultFields : emailFields :=
  {| f_to := []; f_from := []; f_subject := NO_SUBJECT; f_text := []; f_html := [] |}.

Definition isObject {number : Type} (v : json number) : bool :=
  match v with
  | JObj _ => true
  | _ => false
  end.

(** Whether the cache holds nothing for [id]. *)
Definition uncached {cache : Type} (getEmailFromCache : cache -> Z -> option detail)
    (c : cache) (id : Z) : bool :=
  match getEmailFromCache c id with
  | Some _ => false
  | None => true
  end.

(** ** Samples for the routes and the viewer *)

Definition sampleStore : store := {| table := sampleDb; alsoSent := [] |}.

Definition sampleMailboxLookup (_ : jsstring) : exn + option Z := inr (Some 7%Z).

Definition sampleApi (isMock : bool) : request -> R (option apiResponse) :=
  handleEmailsApi isMock false sampleParse (fun a => a) sampleMailboxLookup (fun a => a)
    Fin sampleSqlIdEq sampleSqlGe (fun _ rows => rows) (lit "2026-11-02T08:00:00.000Z").

Definition sampleRequest (m p : string) : request :=
  {| method := lit m;
     path := lit p;
     q_mailbox := Some (lit "box@freemail.test");
     q_limit := None;
     q_ids := Some (lit "1,2") |}.

(** A request for a message that always fails. *)
Definition fetchFails (_ : Z) : exn + detail := inl Thrown.

Definition sampleCache : list (Z * detail) :=
  [(2%Z, displayedMessage None (lit "Minutes") (lit "See the attached") [])].

(* ================================================================== *)
(** * Properties *)
(* ================================================================== *)

(** ** Strings and lines *)

Lemma orStr_nil_r (a : jsstring) : orStr a [] = a.
Proof. destruct a; reflexivity. Qed.

Lemma nonEmpty_true (s : jsstring) : s <> [] -> nonEmpty s = true.
Proof. destruct s; [congruence | reflexivity]. Qed.

Lemma nonEmpty_false (s : jsstring) : nonEmpty s = false -> s = [].
Proof. destruct s; [reflexivity | discriminate]. Qed.

Lemma join_cons2 (sep x y : jsstring) (l : list jsstring) :
  join sep (x :: y :: l) = x ++ sep ++ join sep (y :: l).
Proof. reflexivity. Qed.

(** Joining with CRLF a list that ends with an empty string terminates
    every element before it with CRLF. *)
Lemma join_terminated (l : list jsstring) :
  join CRLF (l ++ [[]]) = concat (List.map ln l).
Proof.
  induction l as [| x l IH]; [reflexivity |].
  destruct l as [| y l].
  - simpl. unfold ln. now rewrite !app_nil_r.
  - change ((x :: y :: l) ++ [[]]) with (x :: y :: (l ++ [[]])).
    rewrite join_cons2.
    change (y :: l ++ [[]]) with ((y :: l) ++ [[]]).
    rewrite IH.
    change (concat (List.map ln (x :: y :: l)))
      with (ln x ++ concat (List.map ln (y :: l))).
    change (ln x) with (x ++ CRLF). now rewrite <- app_assoc.
Qed.

Lemma noBareLF_weaken (s : jsstring) (b : bool) :
  noBareLF false s = true -> noBareLF b s = true.
Proof.
  destruct s as [| c r]; [reflexivity |]. simpl.
  destruct (c =? LF)%N; [discriminate | auto].
Qed.

Lemma noBareLF_app (a b : jsstring) (p : bool) :
  noBareLF p a = true -> noBareLF false b = true -> noBareLF p (a ++ b) = true.
Proof.
  revert p. induction a as [| c r IH]; intros p Ha Hb.
  - now apply noBareLF_weaken.
  - simpl in *. destruct (c =? LF)%N.
    + apply andb_true_iff in Ha as [-> Hr]. simpl. now apply IH.
    + now apply IH.
Qed.

Lemma noBareLF_ln (s : jsstring) :
  noBareLF false s = true -> noBareLF false (ln s) = true.
Proof. intros H. unfold ln. now apply noBareLF_app. Qed.

Lemma noBareLF_concat (l : list jsstring) :
  Forall (fun s => noBareLF false s = true) l -> noBareLF false (concat l) = true.
Proof.
  induction 1 as [| x l Hx _ IH]; [reflexivity |].
  simpl. now apply noBareLF_app.
Qed.

Lemma endsWithCRLF_app (a b : jsstring) :
  endsWithCRLF b = true -> endsWithCRLF (a ++ b) = true.
Proof.
  unfold endsWithCRLF. rewrite rev_app_distr.
  destruct (rev b) as [| x [| y t]]; try discriminate.
  - destruct x as [| p]; try discriminate. repeat (destruct p; try discriminate).
  - now simpl.
Qed.

Lemma endsWithCRLF_concat_ln (l : list jsstring) :
  l <> [] -> endsWithCRLF (concat (List.map ln l)) = true.
Proof.
  induction l as [| x l IH]; [congruence |]. intros _.
  destruct l as [| y l].
  - simpl. rewrite app_nil_r. unfold ln. now apply endsWithCRLF_app.
  - change (concat (List.map ln (x :: y :: l)))
      with (ln x ++ concat (List.map ln (y :: l))).
    apply endsWithCRLF_app, IH. discriminate.
Qed.

(** ** The envelope builder *)

Lemma multipartLines_terminated (i : envelopeInput) :
  join CRLF (multipartLines i) =
  commonHeaders i
  ++ ln (lit "Content-Type: multipart/alternative; boundary=" ++ DQ ++ boundary i ++ DQ)
  ++ ln []
  ++ wirePart (boundary i) (lit "text/plain") (text i)
  ++ wirePart (boundary i) (lit "text/html") (html i)
  ++ ln (lit "--" ++ boundary i ++ lit "--").
Proof.
  unfold multipartLines.
  match goal with
  | |- join CRLF ?l = _ =>
      let l' := eval cbv beta iota delta [removelast] in (removelast l) in
      change l with (l' ++ [[]])
  end.
  rewrite join_terminated, orStr_nil_r.
  unfold commonHeaders, wirePart. cbn [List.map concat].
  rewrite app_nil_r, <- !app_assoc. reflexivity.
Qed.

Lemma singlePartLines_terminated (i : envelopeInput) :
  join CRLF (singlePartLines i) =
  commonHeaders i
  ++ ln (lit "Content-Type: text/plain; charset=" ++ DQ ++ lit "utf-8" ++ DQ)
  ++ ln (lit "Content-Transfer-Encoding: 8bit")
  ++ ln []
  ++ ln (text i).
Proof.
  unfold singlePartLines.
  match goal with
  | |- join CRLF ?l = _ =>
      let l' := eval cbv beta iota delta [removelast] in (removelast l) in
      change l with (l' ++ [[]])
  end.
  rewrite join_terminated, orStr_nil_r.
  unfold commonHeaders. cbn [List.map concat].
  rewrite app_nil_r, <- !app_assoc. reflexivity.
Qed.

(** C1. When the html field is not empty the envelope is: the headers From,
    To, Subject, Date and MIME-Version, the header Content-Type:
    multipart/alternative with the boundary as its parameter, a blank line,
    a text/plain part whose body is the text field, a text/html part whose
    body is the html field, each part introduced by the line "--boundary",
    and the closing line "--boundary--". *)
Theorem multipart_envelope (i : envelopeInput) :
  html i <> [] ->
  buildEml i =
  commonHeaders i
  ++ ln (lit "Content-Type: multipart/alternative; boundary=" ++ DQ ++ boundary i ++ DQ)
  ++ ln []
  ++ wirePart (boundary i) (lit "text/plain") (text i)
  ++ wirePart (boundary i) (lit "text/html") (html i)
  ++ ln (lit "--" ++ boundary i ++ lit "--").
Proof.
  intros Hhtml. unfold buildEml. rewrite (nonEmpty_true Hhtml).
  apply multipartLines_terminated.
Qed.

Lemma multipart_envelope_witness :
  html sampleBoth <> [] /\
  buildEml sampleBoth =
  commonHeaders sampleBoth
  ++ ln (lit "Content-Type: multipart/alternative; boundary=" ++ DQ ++ boundary sampleBoth ++ DQ)
  ++ ln []
  ++ wirePart (boundary sampleBoth) (lit "text/plain") (text sampleBoth)
  ++ wirePart (boundary sampleBoth) (lit "text/html") (html sampleBoth)
  ++ ln (lit "--" ++ boundary sampleBoth ++ lit "--").
Proof.
  split; [simpl; discriminate |].
  apply (multipart_envelope sampleBoth). simpl. discriminate.
Defined.

Lemma single_part_shape (i : envelopeInput) :
  html i = [] ->
  buildEml i =
  commonHeaders i
  ++ ln (lit "Content-Type: text/plain; charset=" ++ DQ ++ lit "utf-8" ++ DQ)
  ++ ln (lit "Content-Transfer-Encoding: 8bit")
  ++ ln []
  ++ ln (text i).
Proof.
  intros Hhtml. unfold buildEml. rewrite Hhtml. simpl nonEmpty. cbv iota.
  apply singlePartLines_terminated.
Qed.

Ltac bare_lf :=
  repeat first
    [ assumption
    | reflexivity
    | apply noBareLF_ln
    | apply noBareLF_app ].

Lemma buildEml_noBareLF (i : envelopeInput) :
  Forall (fun s => noBareLF false s = true) (suppliedStrings i) ->
  noBareLF false (buildEml i) = true.
Proof.
  unfold suppliedStrings. intros H.
  repeat match goal with
         | H : Forall _ (_ :: _) |- _ => apply Forall_cons_iff in H as [? H]
         end.
  unfold buildEml. destruct (nonEmpty (html i)).
  - rewrite multipartLines_terminated. unfold commonHeaders, wirePart. bare_lf.
  - rewrite singlePartLines_terminated. unfold commonHeaders. bare_lf.
Qed.

Lemma buildEml_endsWithCRLF (i : envelopeInput) : endsWithCRLF (buildEml i) = true.
Proof.
  unfold buildEml. destruct (nonEmpty (html i)).
  - rewrite multipartLines_terminated. unfold commonHeaders, wirePart, ln.
    repeat (apply endsWithCRLF_app; try reflexivity).
  - rewrite singlePartLines_terminated. unfold commonHeaders, ln.
    repeat (apply endsWithCRLF_app; try reflexivity).
Qed.

(** C3 as the specification states it fails: a body is copied as it is,
    so a bare LF inside the text field ends a line of the message without a
    CR before it. *)
Lemma bare_lf_survives :
  html sampleBareLF = [] /\ everyLineCRLF (buildEml sampleBareLF) = false.
Proof. split; reflexivity. Qed.

(** C3, amended. When the html field is empty the envelope is single-part:
    the common headers, Content-Type: text/plain; charset="utf-8", the
    transfer-encoding header, a blank line and the text field as the body.
    Multipart or not, the message ends with CRLF, and every line of it is
    terminated by CRLF provided no supplied string (addresses, subject,
    bodies, date, boundary) holds an LF that does not follow a CR. *)
Theorem single_part_envelope (i : envelopeInput) :
  (html i = [] ->
   buildEml i =
   commonHeaders i
   ++ ln (lit "Content-Type: text/plain; charset=" ++ DQ ++ lit "utf-8" ++ DQ)
   ++ ln (lit "Content-Transfer-Encoding: 8bit")
   ++ ln []
   ++ ln (text i))
  /\ endsWithCRLF (buildEml i) = true
  /\ (Forall (fun s => noBareLF false s = true) (suppliedStrings i) ->
      everyLineCRLF (buildEml i) = true).
Proof.
  split; [apply single_part_shape |].
  split; [apply buildEml_endsWithCRLF |].
  intros H. unfold everyLineCRLF.
  now rewrite (buildEml_noBareLF H), buildEml_endsWithCRLF.
Qed.

Lemma single_part_envelope_witness :
  html samplePlain = []
  /\ Forall (fun s => noBareLF false s = true) (suppliedStrings samplePlain)
  /\ buildEml samplePlain =
     commonHeaders samplePlain
     ++ ln (lit "Content-Type: text/plain; charset=" ++ DQ ++ lit "utf-8" ++ DQ)
     ++ ln (lit "Content-Transfer-Encoding: 8bit")
     ++ ln []
     ++ ln (text samplePlain)
  /\ everyLineCRLF (buildEml samplePlain) = true.
Proof.
  assert (Hs : Forall (fun s => noBareLF false s = true) (suppliedStrings samplePlain))
    by (repeat constructor).
  destruct (single_part_envelope samplePlain) as [Hshape [_ Hlines]].
  split; [reflexivity |].
  split; [exact Hs |].
  split; [apply Hshape; reflexivity | apply Hlines; exact Hs].
Defined.

(** ** White space *)

Lemma dropWhile_app_last (p : N -> bool) (l : jsstring) (c : N) :
  dropWhile p (l ++ [c]) =
  match dropWhile p l with
  | [] => if p c then [] else [c]
  | d :: t => (d :: t) ++ [c]
  end.
Proof.
  induction l as [| x l IH]; [reflexivity |].
  simpl. destruct (p x); [exact IH | reflexivity].
Qed.

(** [trimEnd] read from the left. *)
Lemma trimEnd_cons (c : N) (r : jsstring) :
  trimEnd (c :: r) =
  match trimEnd r with
  | [] => if isWhite c then [] else [c]
  | d :: t => c :: d :: t
  end.
Proof.
  unfold trimEnd. simpl rev. rewrite dropWhile_app_last.
  destruct (dropWhile isWhite (rev r)) as [| d t] eqn:E.
  - simpl. now destruct (isWhite c).
  - rewrite rev_app_distr. simpl.
    destruct (rev t ++ [d]) as [| y u] eqn:E'; [now destruct (rev t) |].
    reflexivity.
Qed.

Lemma trimEnd_app (a b : jsstring) :
  trimEnd (a ++ b) =
  match trimEnd b with
  | [] => trimEnd a
  | d :: t => a ++ d :: t
  end.
Proof.
  induction a as [| c a IH].
  - simpl. now destruct (trimEnd b).
  - simpl app. rewrite !trimEnd_cons, IH.
    destruct (trimEnd b) as [| d t]; [reflexivity |].
    now destruct a.
Qed.

Lemma trimEnd_nonwhite (cur : jsstring) :
  forallb (fun c => negb (isWhite c)) cur = true -> trimEnd cur = cur.
Proof.
  induction cur as [| c r IH]; [reflexivity |].
  simpl. intros H. apply andb_true_iff in H as [Hc Hr].
  rewrite trimEnd_cons, (IH Hr).
  apply negb_true_iff in Hc. rewrite Hc. now destruct r.
Qed.

Lemma trimStart_replaceWsRuns (b : bool) (s : jsstring) :
  trimStart (replaceWsRuns b s) = replaceWsRuns true s.
Proof.
  unfold trimStart. revert b.
  induction s as [| c r IH]; intros b; [reflexivity |].
  simpl. destruct (isWhite c) eqn:Hc.
  - destruct b; [apply IH |]. simpl. apply IH.
  - simpl. now rewrite Hc.
Qed.

Lemma wordsFrom_head (cur s : jsstring) :
  cur <> [] -> exists w ws, wordsFrom cur s = w :: ws /\ w <> [].
Proof.
  revert cur. induction s as [| c r IH]; intros cur Hcur.
  - destruct cur; [congruence |]. simpl. eauto.
  - simpl. destruct (isWhite c).
    + destruct cur; [congruence |]. eauto.
    + apply IH. now destruct cur.
Qed.

Lemma wordsFrom_nil_cases (s : jsstring) :
  wordsFrom [] s = [] \/ exists w ws, wordsFrom [] s = w :: ws /\ w <> [].
Proof.
  induction s as [| c r IH]; [now left |].
  simpl. destruct (isWhite c); [exact IH |].
  right. apply wordsFrom_head. discriminate.
Qed.

Lemma join_head_nonempty (sep w : jsstring) (ws : list jsstring) :
  w <> [] -> exists d t, join sep (w :: ws) = d :: t.
Proof.
  destruct w as [| d t]; [congruence |]. intros _.
  destruct ws; simpl; eauto.
Qed.

(** Collapsing the runs of white space and trimming gives the words of
    the string separated by single spaces. *)
Lemma collapse_is_words (s : jsstring) :
  trimEnd (replaceWsRuns true s) = join [SPACE] (wsWords s)
  /\ forall cur, cur <> [] -> forallb (fun c => negb (isWhite c)) cur = true ->
       trimEnd (cur ++ replaceWsRuns false s) = join [SPACE] (wordsFrom cur s).
Proof.
  unfold wsWords. induction s as [| c r [IH1 IH2]].
  - split; [reflexivity |]. intros cur Hcur Hnw.
    rewrite app_nil_r. simpl. destruct cur; [congruence |].
    now apply trimEnd_nonwhite.
  - split.
    + simpl. destruct (isWhite c) eqn:Hc; [exact IH1 |].
      apply (IH2 [c]); [discriminate |]. simpl. now rewrite Hc.
    + intros cur Hcur Hnw. simpl. destruct (isWhite c) eqn:Hc.
      * destruct cur as [| x cur']; [congruence |].
        rewrite trimEnd_app, trimEnd_cons, IH1.
        destruct (wordsFrom_nil_cases r) as [E | (w & ws & E & Hw)]; rewrite E.
        -- simpl. now apply trimEnd_nonwhite.
        -- destruct (join_head_nonempty [SPACE] ws Hw) as (d & t & Ej).
           rewrite Ej. rewrite join_cons2, Ej. reflexivity.
      * replace (cur ++ c :: replaceWsRuns false r)
          with ((cur ++ [c]) ++ replaceWsRuns false r)
          by (now rewrite <- app_assoc).
        apply IH2; [now destruct cur |].
        rewrite forallb_app, Hnw. simpl. now rewrite Hc.
Qed.

Lemma trim_collapse_words (s : jsstring) :
  trim (replaceWsRuns false s) = join [SPACE] (wsWords s).
Proof.
  unfold trim. rewrite trimStart_replaceWsRuns. apply collapse_is_words.
Qed.

(** ** Ingestion *)

Section ReceiverProperties.

Variable number : Type.
Variable numTruthy : number -> bool.
Variable numToString : number -> jsstring.
Variable extractEmail : jsstring -> jsstring.
Variable getOrCreateMailboxId : jsstring -> exn + Z.
Variable stripHtml : jsstring -> jsstring.
Variable dbInsert : insertedRow -> exn + unit.
Variable now : jsstring.
Variable token : jsstring.

Local Abbreviation coerce := (coercePayload numTruthy numToString).
Local Abbreviation receive extract :=
  (handleEmailReceive numTruthy numToString extractEmail getOrCreateMailboxId
     stripHtml extract dbInsert now token).

Lemma buildEml_starts_with_addresses (i : envelopeInput) :
  exists rest,
    buildEml i =
    ln (lit "From: <" ++ sender i ++ lit ">")
    ++ ln (lit "To: <" ++ mailbox i ++ lit ">")
    ++ rest.
Proof.
  unfold buildEml. destruct (nonEmpty (html i)).
  - rewrite multipartLines_terminated. unfold commonHeaders.
    rewrite <- !app_assoc. eexists. reflexivity.
  - rewrite singlePartLines_terminated. unfold commonHeaders.
    rewrite <- !app_assoc. eexists. reflexivity.
Qed.



Lemma firstn_length_le (n : nat) (s : jsstring) : List.length (firstn n s) <= n.
Proof. rewrite length_firstn. lia. Qed.

(** C8. The stored preview is made of the words of the text field, or of
    the stripped html when the text is empty, separated by single spaces
    (every run of white space collapsed, none left at either end), cut to
    its first 120 characters; it has at most 120 characters and is stored
    as absent when it is empty. *)
Theorem stored_preview (extract : jsstring -> jsstring -> jsstring -> exn + jsstring)
    (mailboxId : Z) (f : emailFields) :
  let source := if nonEmpty (f_text f) then f_text f else stripHtml (f_html f) in
  let preview := firstn 120 (join [SPACE] (wsWords source)) in
  previewOf stripHtml (f_text f) (f_html f) = preview
  /\ preview = firstn 120 (trim (replaceWsRuns false source))
  /\ List.length preview <= 120
  /\ ins_preview (rowOf extractEmail stripHtml extract now token mailboxId f) =
     match preview with
     | [] => None
     | _ :: _ => Some preview
     end.
Proof.
  intros source preview.
  assert (Hp : previewOf stripHtml (f_text f) (f_html f) = preview).
  { unfold previewOf, slice0. fold source.
    now rewrite orStr_nil_r, trim_collapse_words. }
  split; [exact Hp |].
  split; [unfold preview; now rewrite trim_collapse_words |].
  split; [apply firstn_length_le |].
  unfold rowOf. cbn [ins_preview]. rewrite Hp. unfold orNull.
  now destruct preview.
Qed.

End ReceiverProperties.



(** ** The read path *)

Section ApiProperties.

Variable isMock : bool.
Variable isMailboxOnly : bool.
Variable parseEmailBody : jsstring -> exn + (jsstring * jsstring).
Variable extractEmail : jsstring -> jsstring.
Variable getMailboxIdByAddress : jsstring -> exn + option Z.
Variable toLowerCase : jsstring -> jsstring.
Variable toDouble : Z -> jsnum.
Variable sqlIdEq : Z -> jsstring -> bool.
Variable sqlGe : jsstring -> jsstring -> bool.
Variable sqlList : statement -> list Messages.Row.t -> list Messages.Row.t.
Variable twentyFourHoursAgo : jsstring.

Local Abbreviation timeParam := (timeParamOf isMailboxOnly twentyFourHoursAgo).
Local Abbreviation detailOf :=
  (emailDetail isMock isMailboxOnly parseEmailBody sqlIdEq sqlGe twentyFourHoursAgo).
Local Abbreviation contentOf := (detailContent parseEmailBody sqlIdEq).
Local Abbreviation batchOf :=
  (emailsBatch isMock isMailboxOnly parseEmailBody toDouble sqlGe twentyFourHoursAgo).
Local Abbreviation listOf :=
  (emailsList isMock isMailboxOnly extractEmail getMailboxIdByAddress toLowerCase
     toDouble sqlList twentyFourHoursAgo).

Lemma selectDetail_run (emailId : jsstring) (tp : option jsstring) (s : db) :
  selectDetail sqlIdEq sqlGe emailId tp s =
  (if hasEmlColumns s
   then inr (filter (fun r => sqlIdEq (Messages.Row.id r) emailId && inTime sqlGe tp r) (messages s))
   else inl Thrown,
   logged (SelectDetail emailId tp) s).
Proof.
  unfold selectDetail, bind, send, requireColumns, readRows, ret.
  cbn [hasEmlColumns logged]. now destruct (hasEmlColumns s).
Qed.

Lemma selectLegacyDetail_run (emailId : jsstring) (s : db) :
  selectLegacyDetail sqlIdEq emailId s =
  (if hasLegacyColumns s
   then inr (filter (fun r => sqlIdEq (Messages.Row.id r) emailId) (messages s))
   else inl Thrown,
   logged (SelectLegacyDetail emailId) s).
Proof.
  unfold selectLegacyDetail, bind, send, requireColumns, readRows, ret.
  cbn [hasLegacyColumns logged]. now destruct (hasLegacyColumns s).
Qed.

Lemma selectLegacyContent_run (emailId : jsstring) (s : db) :
  selectLegacyContent sqlIdEq emailId s =
  (if hasLegacyColumns s
   then inr (filter (fun r => sqlIdEq (Messages.Row.id r) emailId) (messages s))
   else inl Thrown,
   logged (SelectLegacyContent emailId) s).
Proof.
  unfold selectLegacyContent, bind, send, requireColumns, readRows, ret.
  cbn [hasLegacyColumns logged]. now destruct (hasLegacyColumns s).
Qed.

Lemma updateRead_run (emailId : jsstring) (s : db) :
  updateRead sqlIdEq emailId s =
  (inr tt, withRows (markRead sqlIdEq emailId (messages s)) (logged (UpdateRead emailId) s)).
Proof. reflexivity. Qed.

(** Building the content of a detail answer always answers, and writes
    nothing. *)
Lemma detailContent_run (emailId : jsstring) (row : Messages.Row.t) (s : db) :
  exists d s',
    contentOf emailId row s = (inr (JsonDetail d), s')
    /\ messages s' = messages s
    /\ hasEmlColumns s' = hasEmlColumns s
    /\ hasLegacyColumns s' = hasLegacyColumns s
    /\ d_row d = row.
Proof.
  unfold detailContent, bind, tryCatch, ret.
  match goal with
  | |- context [if ?c then (fun s0 : db => _) else _] => destruct c
  end.
  - rewrite selectLegacyContent_run.
    destruct (hasLegacyColumns s) eqn:E.
    + destruct (filter _ (messages s)); eexists; eexists; (split; [reflexivity |]);
        repeat split; auto.
    + eexists; eexists. split; [reflexivity |]. repeat split; auto.
  - eexists; eexists. split; [reflexivity |]. repeat split; auto.
Qed.

Lemma setRead_sameButRead (r : Messages.Row.t) : sameButRead r (setRead r) /\ Messages.Row.is_read (setRead r) = 1%Z.
Proof. unfold sameButRead. repeat split. Qed.

Lemma markRead_frame (emailId : jsstring) (rows : list Messages.Row.t) :
  Forall2 (fun r r' =>
             if sqlIdEq (Messages.Row.id r) emailId then r' = setRead r else r' = r)
          rows (markRead sqlIdEq emailId rows).
Proof.
  induction rows as [| r rows IH]; [constructor |].
  simpl. constructor; [| exact IH].
  now destruct (sqlIdEq (Messages.Row.id r) emailId).
Qed.

(** C10. A detail read that answers with the message leaves the table as
    it was except for the UPDATE: rows whose id is not the requested one
    are unchanged, and a row with that id has [is_read] set to 1 and every
    other column unchanged.  (In the demonstration mode nothing is
    written.)  A read that answers 404 writes nothing. *)
Theorem detail_read_frame (emailId : jsstring) (s s' : db) (resp : response) :
  detailOf emailId s = (inr resp, s') ->
  (isSuccess resp = true ->
     messages s' = (if isMock then messages s else markRead sqlIdEq emailId (messages s))
     /\ Forall2 (fun r r' =>
                   r' = r
                   \/ (isMock = false /\ sqlIdEq (Messages.Row.id r) emailId = true
                       /\ sameButRead r r' /\ Messages.Row.is_read r' = 1%Z))
                (messages s) (messages s'))
  /\ (isSuccess resp = false -> messages s' = messages s)
  /\ hasEmlColumns s' = hasEmlColumns s
  /\ hasLegacyColumns s' = hasLegacyColumns s.
Proof.
  assert (Hframe : Forall2 (fun r r' =>
                   r' = r
                   \/ (false = false /\ sqlIdEq (Messages.Row.id r) emailId = true
                       /\ sameButRead r r' /\ Messages.Row.is_read r' = 1%Z))
                (messages s) (markRead sqlIdEq emailId (messages s))).
  { eapply Forall2_impl; [| apply markRead_frame].
    intros r r' H. cbv beta in H.
    destruct (sqlIdEq (Messages.Row.id r) emailId) eqn:E; [| now left].
    right. subst r'. repeat split. }
  assert (Hsame : forall l : list Messages.Row.t, Forall2 (fun r r' =>
                   r' = r
                   \/ (true = false /\ sqlIdEq (Messages.Row.id r) emailId = true
                       /\ sameButRead r r' /\ Messages.Row.is_read r' = 1%Z)) l l).
  { induction l; constructor; auto. }
  unfold emailDetail. destruct isMock.
  - unfold ret. intros H. injection H as <- <-. simpl. repeat split; auto.
  - unfold tryCatch, bind. rewrite selectDetail_run.
    destruct (hasEmlColumns s) eqn:Hcols.
    + destruct (filter _ (messages s)) as [| row rest].
      * unfold ret. intros H. injection H as <- <-. simpl.
        repeat split; auto; discriminate.
      * rewrite updateRead_run.
        match goal with
        | |- context [detailContent _ _ emailId row ?st] =>
            destruct (detailContent_run emailId row st)
              as (d & s1 & Hrun & Hrows & Hc1 & Hc2 & _)
        end.
        rewrite Hrun. intros H. injection H as <- <-.
        cbn [messages hasEmlColumns hasLegacyColumns withRows logged] in Hrows, Hc1, Hc2.
        rewrite Hrows.
        split; [intros _; split; [reflexivity | exact Hframe] |].
        split; [discriminate |]. split; congruence.
    + rewrite selectLegacyDetail_run. cbn [hasLegacyColumns logged].
      destruct (hasLegacyColumns s) eqn:Hleg; [| discriminate].
      destruct (filter _ (messages (logged _ s))) as [| row rest].
      * unfold ret. intros H. injection H as <- <-. simpl.
        repeat split; auto; discriminate.
      * rewrite updateRead_run. unfold ret. intros H. injection H as <- <-.
        cbn [messages hasEmlColumns hasLegacyColumns withRows logged].
        split; [intros _; split; [reflexivity | exact Hframe] |].
        split; [discriminate |]. split; congruence.
Qed.

(** *** The size of requests *)


Lemma selectList_run (mailboxId : Z) (tp : option jsstring) (limit : jsnum) (s : db) :
  selectList sqlList mailboxId tp limit s =
  (if hasEmlColumns s
   then inr (sqlList (SelectList mailboxId tp limit) (messages s))
   else inl Thrown,
   logged (SelectList mailboxId tp limit) s).
Proof.
  unfold selectList, bind, send, requireColumns, readRows, ret.
  cbn [hasEmlColumns logged]. now destruct (hasEmlColumns s).
Qed.

Lemma selectListLegacy_run (mailboxId : Z) (tp : option jsstring) (limit : jsnum) (s : db) :
  selectListLegacy sqlList mailboxId tp limit s =
  (if hasLegacyColumns s
   then inr (sqlList (SelectListLegacy mailboxId tp limit) (messages s))
   else inl Thrown,
   logged (SelectListLegacy mailboxId tp limit) s).
Proof.
  unfold selectListLegacy, bind, send, requireColumns, readRows, ret.
  cbn [hasLegacyColumns logged]. now destruct (hasLegacyColumns s).
Qed.



(** *** The fallback chain *)

Lemma batchContent_nothing (row : Messages.Row.t) :
  let eml := optStr (Messages.Row.eml_content row) in
  (nonEmpty eml = true -> parsesToNothing parseEmailBody eml) ->
  d_content (batchContent parseEmailBody row) =
    (if nonEmpty eml then eml else optStr (Messages.Row.preview row))
  /\ d_html_content (batchContent parseEmailBody row) = [].
Proof.
  intros eml Hparse. unfold batchContent. fold eml. cbn [d_content d_html_content].
  destruct (nonEmpty eml) eqn:Heml.
  - specialize (Hparse eq_refl). unfold parsesToNothing in Hparse.
    destruct (parseEmailBody eml) as [e | [t h]].
    + simpl. now rewrite Heml.
    + destruct Hparse as [-> ->]. simpl. now rewrite Heml.
  - simpl. apply nonEmpty_false in Heml.
    destruct (nonEmpty (optStr (Messages.Row.preview row))) eqn:Hp; [auto |].
    apply nonEmpty_false in Hp. now rewrite Hp.
Qed.

Lemma detailContent_nothing (emailId : jsstring) (row : Messages.Row.t) (s : db) :
  let eml := optStr (Messages.Row.eml_content row) in
  (nonEmpty eml = true -> parsesToNothing parseEmailBody eml) ->
  exists d s',
    contentOf emailId row s = (inr (JsonDetail d), s')
    /\ (d_content d, d_html_content d) =
       (if nonEmpty eml then (eml, [])
        else
          let legacy := legacyBody sqlIdEq emailId s in
          if nonEmpty (fst legacy) || nonEmpty (snd legacy) then legacy
          else (optStr (Messages.Row.preview row), [])).
Proof.
  intros eml Hparse. unfold detailContent. fold eml.
  destruct (nonEmpty eml) eqn:Heml.
  - specialize (Hparse eq_refl). unfold parsesToNothing in Hparse.
    destruct (parseEmailBody eml) as [e | [t h]];
      [| destruct Hparse as [-> ->]];
      simpl; rewrite Heml; unfold bind, ret; simpl; rewrite Heml; simpl;
      eexists; eexists; (split; [reflexivity | reflexivity]).
  - simpl. unfold bind, tryCatch, ret. rewrite selectLegacyContent_run.
    unfold legacyBody. destruct (hasLegacyColumns s).
    + destruct (filter _ (messages s)) as [| fr rest].
      * simpl. eexists; eexists. split; [reflexivity |]. simpl.
        destruct (nonEmpty (optStr (Messages.Row.preview row))) eqn:Hp; [reflexivity |].
        apply nonEmpty_false in Hp. now rewrite Hp.
      * cbn [fst snd].
        change (orStr [] (optStr (Messages.Row.content fr))) with (optStr (Messages.Row.content fr)).
        change (orStr [] (optStr (Messages.Row.html_content fr))) with (optStr (Messages.Row.html_content fr)).
        eexists; eexists. split; [reflexivity |]. cbn [d_content d_html_content].
        destruct (nonEmpty (optStr (Messages.Row.content fr))) eqn:Hc; simpl; [reflexivity |].
        destruct (nonEmpty (optStr (Messages.Row.html_content fr))) eqn:Hh; simpl; [reflexivity |].
        apply nonEmpty_false in Hc, Hh. rewrite Hc, Hh.
        destruct (nonEmpty (optStr (Messages.Row.preview row))) eqn:Hp; [reflexivity |].
        apply nonEmpty_false in Hp. now rewrite Hp.
    + simpl. eexists; eexists. split; [reflexivity |]. simpl.
      destruct (nonEmpty (optStr (Messages.Row.preview row))) eqn:Hp; [reflexivity |].
      apply nonEmpty_false in Hp. now rewrite Hp.
Qed.

(** Once the row is found the single-detail route answers with it,
    whatever the parser does with its raw message. *)
Lemma detail_answers_found_row (emailId : jsstring) (row : Messages.Row.t) (s : db) :
  isMock = false -> hasEmlColumns s = true ->
  forall rest,
    filter (fun r => sqlIdEq (Messages.Row.id r) emailId && inTime sqlGe timeParam r) (messages s)
    = row :: rest ->
    exists d s', detailOf emailId s = (inr (JsonDetail d), s') /\ d_row d = row.
Proof.
  intros Hmock Hcols rest Hfound. unfold emailDetail.
  destruct isMock; [discriminate |].
  unfold tryCatch, bind. rewrite selectDetail_run, Hcols, Hfound, updateRead_run.
  match goal with
  | |- context [detailContent _ _ emailId row ?st] =>
      destruct (detailContent_run emailId row st) as (d & s1 & Hrun & _ & _ & _ & Hrow)
  end.
  rewrite Hrun. eauto.
Qed.

(** C5, amended. When the parser makes nothing of a row's raw message (it
    returns two empty strings, or throws), no error is answered and the
    content is the raw message itself.  When the row has no raw message,
    the batch route answers the stored preview; the single-detail route
    first reads the older [content] and [html_content] columns and
    answers them if either holds something, and answers the stored preview
    only otherwise. *)
Theorem fallback_chain (emailId : jsstring) (row : Messages.Row.t) (s : db) :
  let eml := optStr (Messages.Row.eml_content row) in
  (nonEmpty eml = true -> parsesToNothing parseEmailBody eml) ->
  (d_content (batchContent parseEmailBody row) =
     (if nonEmpty eml then eml else optStr (Messages.Row.preview row))
   /\ d_html_content (batchContent parseEmailBody row) = [])
  /\ (exists d s',
        contentOf emailId row s = (inr (JsonDetail d), s')
        /\ (d_content d, d_html_content d) =
           (if nonEmpty eml then (eml, [])
            else
              let legacy := legacyBody sqlIdEq emailId s in
              if nonEmpty (fst legacy) || nonEmpty (snd legacy) then legacy
              else (optStr (Messages.Row.preview row), [])))
  /\ (isMock = false -> hasEmlColumns s = true ->
      forall rest,
        filter (fun r => sqlIdEq (Messages.Row.id r) emailId && inTime sqlGe timeParam r) (messages s)
        = row :: rest ->
        exists d s', detailOf emailId s = (inr (JsonDetail d), s') /\ d_row d = row).
Proof.
  intros eml Hparse. split; [| split].
  - now apply batchContent_nothing.
  - now apply detailContent_nothing.
  - apply detail_answers_found_row.
Qed.

End ApiProperties.

(** C5 as the specification states it fails on the single-detail route: row
    2 of the sample has no raw message and has a preview, yet the content
    answered is that of the older column. *)
Lemma older_columns_come_before_preview :
  exists d s',
    sampleDetail sampleParse (lit "2") sampleDb = (inr (JsonDetail d), s')
    /\ Messages.Row.eml_content (d_row d) = None
    /\ Messages.Row.preview (d_row d) = Some (lit "See the attached")
    /\ d_content d = lit "See the attached minutes of the meeting."
    /\ d_content d <> lit "See the attached".
Proof.
  eexists. eexists. split; [vm_compute; reflexivity |].
  repeat split. vm_compute. discriminate.
Qed.

Lemma fallback_chain_witness :
  let eml := optStr (Messages.Row.eml_content sampleRow1) in
  (nonEmpty eml = true /\ parsesToNothing parseThrows eml)
  /\ d_content (batchContent parseThrows sampleRow1) = eml
  /\ exists d s',
       detailContent parseThrows sampleSqlIdEq (lit "1") sampleRow1 sampleDb
       = (inr (JsonDetail d), s')
       /\ (d_content d, d_html_content d) = (eml, []).
Proof.
  intros eml.
  split; [split; [reflexivity | exact I] |].
  destruct (fallback_chain false false parseThrows sampleSqlIdEq sampleSqlGe
              (lit "2026-11-02T08:00:00.000Z") (lit "1") sampleRow1 sampleDb
              (fun _ => I)) as [[Hbatch _] [Hsingle _]].
  split; [exact Hbatch | exact Hsingle].
Defined.

Lemma detail_read_frame_witness :
  let run := sampleDetail sampleParse (lit "1") sampleDb in
  exists d,
    fst run = inr (JsonDetail d)
    /\ messages (snd run) = markRead sampleSqlIdEq (lit "1") (messages sampleDb)
    /\ List.map Messages.Row.is_read (messages (snd run)) = [1%Z; 0%Z].
Proof.
  intros run.
  destruct run as [[e | resp] s'] eqn:Hrun; [vm_compute in Hrun; discriminate |].
  destruct (detail_read_frame false false sampleParse sampleSqlIdEq sampleSqlGe
              (lit "2026-11-02T08:00:00.000Z") (lit "1") sampleDb Hrun)
    as [Hok _].
  destruct resp as [status | | rows | items | d | row];
    try (vm_compute in Hrun; discriminate).
  exists d. destruct (Hok eq_refl) as [Hrows _].
  split; [reflexivity |]. split; [exact Hrows |].
  cbn [snd]. rewrite Hrows. reflexivity.
Defined.


(** ** The verification code at ingestion and at display *)

Section ExtractionProperties.

Variable codeInSubject : jsstring -> jsstring.
Variable codeInBody : jsstring -> jsstring.
Variable stripHtml : jsstring -> jsstring.

Local Abbreviation atIngestion := (extractCodeSpec codeInSubject codeInBody stripHtml).
Local Abbreviation atDisplay := (extractCodeAtDisplay codeInBody).


End ExtractionProperties.


(** The same message with the sample scan on both sides. *)
Example subject_only_code_sample :
  extractCodeSpec sampleScan sampleScan (fun h => h)
    (lit "Your code is 384920") (lit "Hello") [] = lit "384920"
  /\ extractedCode (extractCodeAtDisplay sampleScan)
       (displayedMessage None (lit "Your code is 384920") (lit "Hello") []) = [].
Proof. split; reflexivity. Qed.


(** ** The parser on the builder's output *)

Lemma oneLine_cons (c : N) (l : jsstring) :
  oneLine (c :: l) = true -> (CR =? c)%N = false /\ (LF =? c)%N = false /\ oneLine l = true.
Proof.
  unfold oneLine. simpl. intros H. apply andb_true_iff in H as [Hc Hl].
  apply negb_true_iff, orb_false_iff in Hc. rewrite !(N.eqb_sym c) in Hc. tauto.
Qed.

Lemma oneLine_app (a b : jsstring) :
  oneLine a = true -> oneLine b = true -> oneLine (a ++ b) = true.
Proof. unfold oneLine. intros Ha Hb. now rewrite forallb_app, Ha, Hb. Qed.

Lemma splitHeadersBody_cons (c : N) (r : jsstring) :
  splitHeadersBody (c :: r) =
  if startsWith (CRLF ++ CRLF) (c :: r) then ([], skipn 4 (c :: r))
  else if startsWith [LF; LF] (c :: r) then ([], skipn 2 (c :: r))
  else (c :: fst (splitHeadersBody r), snd (splitHeadersBody r)).
Proof. simpl. now destruct (splitHeadersBody r). Qed.

Lemma splitHeadersBody_step (c : N) (r : jsstring) :
  (CR =? c)%N = false -> (LF =? c)%N = false ->
  splitHeadersBody (c :: r) = (c :: fst (splitHeadersBody r), snd (splitHeadersBody r)).
Proof.
  intros HCR HLF. rewrite splitHeadersBody_cons.
  cbn [startsWith CRLF app]. now rewrite HCR, HLF.
Qed.

Lemma split_after_line (l : jsstring) (c : N) (r : jsstring) :
  oneLine l = true -> oneLine [c] = true ->
  splitHeadersBody (l ++ CRLF ++ c :: r) =
  (l ++ CRLF ++ fst (splitHeadersBody (c :: r)), snd (splitHeadersBody (c :: r))).
Proof.
  intros Hl Hc. apply oneLine_cons in Hc as (HcCR & HcLF & _).
  induction l as [| x l IH].
  - change ([] ++ CRLF ++ c :: r) with (CR :: LF :: c :: r).
    rewrite (splitHeadersBody_cons CR).
    cbn [startsWith CRLF app]. rewrite HcCR.
    change (CR =? CR)%N with true. change (LF =? LF)%N with true.
    change (LF =? CR)%N with false. cbn [andb].
    rewrite (splitHeadersBody_cons LF).
    cbn [startsWith CRLF app]. rewrite HcLF.
    change (LF =? LF)%N with true. change (CR =? LF)%N with false. cbn [andb fst snd].
    reflexivity.
  - apply oneLine_cons in Hl as (HxCR & HxLF & Hl).
    change ((x :: l) ++ CRLF ++ c :: r) with (x :: (l ++ CRLF ++ c :: r)).
    rewrite splitHeadersBody_step by assumption. rewrite (IH Hl). reflexivity.
Qed.

Lemma split_at_blank_line (l body : jsstring) :
  oneLine l = true ->
  splitHeadersBody (l ++ CRLF ++ CRLF ++ body) = (l, body).
Proof.
  induction l as [| x l IH]; intros Hl.
  - reflexivity.
  - apply oneLine_cons in Hl as (HxCR & HxLF & Hl).
    change ((x :: l) ++ CRLF ++ CRLF ++ body) with (x :: (l ++ CRLF ++ CRLF ++ body)).
    rewrite splitHeadersBody_step by assumption. rewrite (IH Hl). reflexivity.
Qed.

Lemma join_app (sep : jsstring) (a b : list jsstring) :
  a <> [] -> b <> [] -> join sep (a ++ b) = join sep a ++ sep ++ join sep b.
Proof.
  intros Ha Hb. induction a as [| x a IH]; [congruence |].
  destruct a as [| y a].
  - destruct b; [congruence | reflexivity].
  - change ((x :: y :: a) ++ b) with (x :: y :: (a ++ b)).
    rewrite !join_cons2. change (y :: a ++ b) with ((y :: a) ++ b).
    rewrite IH by discriminate. now rewrite <- !app_assoc.
Qed.

(** A block of header lines, none of them empty or holding a line break,
    is found again whole in front of the first blank line. *)
Lemma split_block (lines : list jsstring) (body : jsstring) :
  lines <> [] ->
  Forall (fun l => oneLine l = true /\ l <> []) lines ->
  splitHeadersBody (join CRLF lines ++ CRLF ++ CRLF ++ body) = (join CRLF lines, body).
Proof.
  intros Hne Hall. induction Hall as [| l rest [Hl Hl0] Hrest IH]; [congruence |].
  destruct rest as [| l2 rest].
  - simpl join. now apply split_at_blank_line.
  - rewrite join_cons2. rewrite <- !app_assoc.
    assert (Hhead : exists c r, join CRLF (l2 :: rest) ++ CRLF ++ CRLF ++ body = c :: r
                                /\ oneLine [c] = true).
    { apply Forall_inv in Hrest as [Hl2 Hl20].
      destruct l2 as [| c l2']; [congruence |].
      apply oneLine_cons in Hl2 as (H1 & H2 & _).
      destruct rest; simpl; eexists; eexists; (split; [reflexivity |]);
        unfold oneLine; simpl; rewrite (N.eqb_sym c CR), (N.eqb_sym c LF), H1, H2;
        reflexivity. }
    destruct Hhead as (c & r & Hcr & Hc).
    rewrite Hcr, split_after_line by assumption. rewrite <- Hcr, IH by discriminate.
    reflexivity.
Qed.

Lemma splitOn_line (l rest : jsstring) :
  oneLine l = true ->
  splitOn LF (l ++ CRLF ++ rest) = (l ++ [CR]) :: splitOn LF rest.
Proof.
  induction l as [| x l IH]; intros Hl.
  - reflexivity.
  - apply oneLine_cons in Hl as (_ & HxLF & Hl).
    change ((x :: l) ++ CRLF ++ rest) with (x :: (l ++ CRLF ++ rest)).
    cbn [splitOn]. rewrite (N.eqb_sym x LF), HxLF, (IH Hl). reflexivity.
Qed.

Lemma splitOn_oneLine (l : jsstring) : oneLine l = true -> splitOn LF l = [l].
Proof.
  induction l as [| x l IH]; intros Hl; [reflexivity |].
  apply oneLine_cons in Hl as (_ & HxLF & Hl).
  cbn [splitOn]. rewrite (N.eqb_sym x LF), HxLF, (IH Hl). reflexivity.
Qed.

Lemma stripCR_snoc (l : jsstring) : stripCR (l ++ [CR]) = l.
Proof.
  unfold stripCR. rewrite rev_app_distr. simpl. apply rev_involutive.
Qed.

Lemma stripCR_oneLine (l : jsstring) : oneLine l = true -> stripCR l = l.
Proof.
  intros Hl. unfold stripCR. destruct (rev l) as [| c r] eqn:E; [reflexivity |].
  assert (Hin : In c l) by (apply in_rev; rewrite E; now left).
  unfold oneLine in Hl. rewrite forallb_forall in Hl. specialize (Hl c Hin).
  apply negb_true_iff, orb_false_iff in Hl as [Hc _]. now rewrite Hc.
Qed.

Lemma headerLines_join (lines : list jsstring) :
  lines <> [] ->
  Forall (fun l => oneLine l = true /\ l <> []) lines ->
  headerLines (join CRLF lines) = lines.
Proof.
  intros Hne Hall. unfold headerLines.
  induction Hall as [| l rest [Hl _] Hrest IH]; [congruence |].
  destruct rest as [| l2 rest].
  - simpl join. rewrite splitOn_oneLine by assumption. simpl. now rewrite stripCR_oneLine.
  - rewrite join_cons2, splitOn_line by assumption. cbn [List.map].
    rewrite stripCR_snoc, IH by discriminate. reflexivity.
Qed.

Lemma name_of_prefixed (p x : jsstring) :
  hasColon p = true ->
  hasColon (p ++ x) = true
  /\ takeWhile notColon (p ++ x) = takeWhile notColon p
  /\ dropWhile notColon (p ++ x) = dropWhile notColon p ++ x.
Proof.
  unfold hasColon. induction p as [| c p IH]; [discriminate |].
  assert (E : notColon c = negb (COLON =? c)%N)
    by (unfold notColon; now rewrite N.eqb_sym).
  cbn [app existsb takeWhile dropWhile]. rewrite !E.
  destruct (COLON =? c)%N; cbn [orb negb].
  - auto.
  - intros H. destruct (IH H) as (H1 & H2 & H3). now rewrite H1, H2, H3.
Qed.

Lemma lookupHeader_skip (name p x : jsstring) (rest : list jsstring) :
  hasColon p = true ->
  streq (lower (trim (takeWhile notColon p))) name = false ->
  lookupHeader name ((p ++ x) :: rest) = lookupHeader name rest.
Proof.
  intros Hp Hname. destruct (name_of_prefixed p x Hp) as (H1 & H2 & _).
  cbn [lookupHeader]. now rewrite H1, H2, Hname.
Qed.

Lemma singlePart_contentType (i : envelopeInput) :
  lookupHeader (lit "content-type") (singlePartHeaders i)
  = Some (lit "text/plain; charset=" ++ DQ ++ lit "utf-8" ++ DQ).
Proof.
  unfold singlePartHeaders.
  do 4 (rewrite lookupHeader_skip by reflexivity).
  reflexivity.
Qed.

Lemma singlePart_encoding (i : envelopeInput) :
  encodingOf (singlePartHeaders i) = Enc8bit.
Proof.
  unfold encodingOf, singlePartHeaders.
  do 4 (rewrite lookupHeader_skip by reflexivity).
  reflexivity.
Qed.

Lemma singlePartHeaders_lines (i : envelopeInput) :
  oneLine (sender i) = true -> oneLine (mailbox i) = true ->
  oneLine (subject i) = true -> oneLine (dateStr i) = true ->
  Forall (fun l => oneLine l = true /\ l <> []) (singlePartHeaders i).
Proof.
  intros Hs Hm Hj Hd. unfold singlePartHeaders.
  repeat constructor; try discriminate;
    repeat (apply oneLine_app; try assumption; try reflexivity).
Qed.

Lemma buildEml_single_split (i : envelopeInput) :
  html i = [] ->
  buildEml i = join CRLF (singlePartHeaders i) ++ CRLF ++ CRLF ++ text i ++ CRLF.
Proof.
  intros Hhtml. unfold buildEml. rewrite Hhtml. simpl nonEmpty. cbv iota.
  change (singlePartLines i) with (singlePartHeaders i ++ [[]; orStr (text i) []; []]).
  rewrite join_app by discriminate. rewrite orStr_nil_r. reflexivity.
Qed.

Lemma crlfToLf_cons2 (c d : N) (r : jsstring) :
  crlfToLf (c :: d :: r) =
  if (c =? CR)%N && (d =? LF)%N then crlfToLf (d :: r) else c :: crlfToLf (d :: r).
Proof. reflexivity. Qed.

Lemma crlfToLf_terminated (t : jsstring) : crlfToLf (t ++ CRLF) = crlfToLf t ++ [LF].
Proof.
  induction t as [| c r IH]; [reflexivity |].
  destruct r as [| d r'].
  - simpl. destruct (c =? CR)%N; reflexivity.
  - change ((c :: d :: r') ++ CRLF) with (c :: d :: (r' ++ CRLF)).
    rewrite !crlfToLf_cons2.
    change (d :: r' ++ CRLF) with ((d :: r') ++ CRLF). rewrite IH.
    now destruct ((c =? CR)%N && (d =? LF)%N).
Qed.

Lemma normalizeEol_terminated (t : jsstring) : normalizeEol (t ++ CRLF) = normalizeEol t.
Proof.
  unfold normalizeEol. rewrite crlfToLf_terminated, rev_app_distr. reflexivity.
Qed.

(** The two round trips of section 8 of the specification, on the
    parser as modelled. *)
Example round_trip_both_parts :
  parseBody (fun _ b => b) (fun _ b => b) (buildEml sampleBoth)
  = {| pb_text := lit "Hello"; pb_html := lit "<b>Hi</b>" |}.
Proof. vm_compute. reflexivity. Qed.

Example round_trip_plain :
  parseBody (fun _ b => b) (fun _ b => b) (buildEml samplePlain)
  = {| pb_text := lit "Hello" ++ CRLF; pb_html := [] |}.
Proof. vm_compute. reflexivity. Qed.

Section ParserProperties.

Variable decodeBase64 : jsstring -> jsstring -> jsstring.
Variable decodeQuotedPrintable : jsstring -> jsstring -> jsstring.

(** C2, amended. For every envelope input with an empty html field whose
    sender, recipient, subject and date hold no CR and no LF, parsing the
    envelope built from it gives the text field followed by the CRLF the
    builder ends the body with, which is the text field once line endings
    are normalised, and an empty html. *)
Theorem plain_round_trip (i : envelopeInput) :
  html i = [] ->
  oneLine (sender i) = true -> oneLine (mailbox i) = true ->
  oneLine (subject i) = true -> oneLine (dateStr i) = true ->
  let parsed := parseBody decodeBase64 decodeQuotedPrintable (buildEml i) in
  pb_text parsed = text i ++ CRLF
  /\ normalizeEol (pb_text parsed) = normalizeEol (text i)
  /\ pb_html parsed = [].
Proof.
  intros Hhtml Hs Hm Hj Hd.
  assert (Hlines := singlePartHeaders_lines i Hs Hm Hj Hd).
  assert (Hne : singlePartHeaders i <> []) by discriminate.
  assert (Hparse : parseBody decodeBase64 decodeQuotedPrintable (buildEml i)
                   = {| pb_text := text i ++ CRLF; pb_html := [] |}).
  { unfold parseBody, leaf.
    rewrite (buildEml_single_split i Hhtml), (split_block _ Hne Hlines),
      (headerLines_join Hne Hlines), singlePart_contentType, singlePart_encoding.
    reflexivity. }
  cbv zeta. rewrite Hparse. cbn [pb_text pb_html].
  split; [reflexivity |]. split; [apply normalizeEol_terminated | reflexivity].
Qed.

End ParserProperties.

(** C2 as the specification states it fails: a blank line inside the
    subject ends the header block early, and what follows it, the rest of
    the subject and the remaining headers, is parsed as the text. *)
Lemma header_injection :
  text sampleInjected <> [] /\ html sampleInjected = []
  /\ ~ exists decodeBase64 decodeQuotedPrintable,
         let parsed := parseBody decodeBase64 decodeQuotedPrintable (buildEml sampleInjected) in
         normalizeEol (pb_text parsed) = normalizeEol (text sampleInjected)
         /\ pb_html parsed = [].
Proof.
  split; [simpl; discriminate |]. split; [reflexivity |].
  intros (b64 & qp & Htext & _). vm_compute in Htext. discriminate.
Qed.

Lemma plain_round_trip_witness :
  let keep := fun _ b : jsstring => b in
  let parsed := parseBody keep keep (buildEml samplePlain) in
  html samplePlain = []
  /\ pb_text parsed = lit "Hello" ++ CRLF
  /\ normalizeEol (pb_text parsed) = lit "Hello"
  /\ pb_html parsed = [].
Proof.
  intros keep parsed.
  destruct (plain_round_trip keep keep samplePlain eq_refl eq_refl eq_refl eq_refl eq_refl)
    as (Htext & Hnorm & Hhtml).
  split; [reflexivity |].
  split; [exact Htext |].
  split; [fold parsed in Hnorm; rewrite Hnorm; reflexivity | exact Hhtml].
Defined.

(** ** More on ingestion *)

Lemma singleSpaced_replaceWsRuns (b : bool) (s : jsstring) :
  singleSpaced b (replaceWsRuns b s) = true.
Proof.
  revert b. induction s as [| c r IH]; intros b; [reflexivity |].
  simpl. destruct (isWhite c) eqn:Hc.
  - destruct b; [apply IH |]. simpl. apply IH.
  - simpl. rewrite Hc. apply IH.
Qed.

Lemma singleSpaced_prefix (a t : jsstring) (b : bool) :
  singleSpaced b (a ++ t) = true -> singleSpaced b a = true.
Proof.
  revert b. induction a as [| c r IH]; intros b; [reflexivity |].
  simpl. destruct (isWhite c).
  - intros H. apply andb_true_iff in H as [H1 H2]. rewrite H1. simpl. now apply IH.
  - apply IH.
Qed.

Lemma trimEnd_prefix (s : jsstring) : exists t, s = trimEnd s ++ t.
Proof.
  induction s as [| c r [t IH]]; [now exists [] |].
  rewrite trimEnd_cons. destruct (trimEnd r) as [| d u].
  - destruct (isWhite c); [now exists (c :: r) | exists r; reflexivity].
  - exists t. simpl. now rewrite IH at 1.
Qed.

Lemma firstn_prefix (n : nat) (s : jsstring) : exists t, s = firstn n s ++ t.
Proof. exists (skipn n s). now rewrite firstn_skipn. Qed.

Lemma wordsFrom_blank (s : jsstring) :
  forallb isWhite s = true -> wordsFrom [] s = [].
Proof.
  induction s as [| c r IH]; [reflexivity |].
  simpl. destruct (isWhite c); [exact IH | discriminate].
Qed.

Lemma wordsFrom_nil_blank (s : jsstring) :
  wordsFrom [] s = [] -> forallb isWhite s = true.
Proof.
  induction s as [| c r IH]; [reflexivity |].
  simpl. destruct (isWhite c); [exact IH |].
  intros H. destruct (@wordsFrom_head [c] r) as (w & ws & E & _); [discriminate |].
  simpl in E. congruence.
Qed.

Lemma join_words_nil (s : jsstring) :
  join [SPACE] (wsWords s) = [] <-> forallb isWhite s = true.
Proof.
  unfold wsWords. split.
  - intros H. apply wordsFrom_nil_blank.
    destruct (wordsFrom_nil_cases s) as [E | (w & ws & E & Hw)]; [exact E |].
    rewrite E in H. destruct (join_head_nonempty [SPACE] ws Hw) as (d & t & Ej).
    congruence.
  - intros H. now rewrite wordsFrom_blank.
Qed.

Lemma firstn_nil_iff (n : nat) (s : jsstring) : firstn (S n) s = [] <-> s = [].
Proof. destruct s; simpl; split; congruence. Qed.

Section MoreReceiverProperties.

Variable number : Type.
Variable numTruthy : number -> bool.
Variable numToString : number -> jsstring.
Variable extractEmail : jsstring -> jsstring.
Variable getOrCreateMailboxId : jsstring -> exn + Z.
Variable stripHtml : jsstring -> jsstring.
Variable extractVerificationCode : jsstring -> jsstring -> jsstring -> exn + jsstring.
Variable dbInsert : insertedRow -> exn + unit.
Variable now : jsstring.
Variable token : jsstring.

Local Abbreviation coerce := (coercePayload numTruthy numToString).
Local Abbreviation receive :=
  (handleEmailReceive numTruthy numToString extractEmail getOrCreateMailboxId
     stripHtml extractVerificationCode dbInsert now token).
Local Abbreviation row := (rowOf extractEmail stripHtml extractVerificationCode now token).

Lemma buildEml_nonEmpty (i : envelopeInput) : buildEml i <> [].
Proof.
  destruct (buildEml_starts_with_addresses i) as [rest ->]. discriminate.
Qed.

(** X1. A row that ingestion stores always carries its raw message, the
    envelope built from the payload, and a subject that is not empty: the
    coerced subject, or the placeholder when that is empty.  Its recipient
    column is the coerced [to] field, its mailbox id the one the lookup
    returned for the normalised recipient, and the INSERT succeeded. *)
Theorem ingested_row_is_complete (emailData : json number) (r : insertedRow) :
  receive (inr emailData) = ReceiveOk r ->
  let f := coerce emailData in
  ins_eml_content r = Some (buildEml (envelopeOf extractEmail now token f))
  /\ ins_subject r <> []
  /\ (f_subject f <> [] -> ins_subject r = f_subject f)
  /\ ins_to_addrs r = f_to f
  /\ getOrCreateMailboxId (extractEmail (f_to f)) = inr (ins_mailbox_id r)
  /\ dbInsert r = inr tt.
Proof.
  intros Hok f. unfold handleEmailReceive in Hok. fold f in Hok.
  destruct (getOrCreateMailboxId (extractEmail (f_to f))) as [e | mailboxId];
    [discriminate |].
  destruct (dbInsert (row mailboxId f)) as [e | []] eqn:Hins; [discriminate |].
  injection Hok as <-. unfold rowOf in *. cbn [ins_eml_content ins_subject ins_to_addrs ins_mailbox_id].
  split.
  - unfold orNull. now rewrite (nonEmpty_true (@buildEml_nonEmpty _)).
  - split; [| split; [| split; [| split]]].
    + unfold orStr. destruct (f_subject f); simpl; discriminate.
    + intros H. unfold orStr. now rewrite (nonEmpty_true H).
    + apply orStr_nil_r.
    + reflexivity.
    + exact Hins.
Qed.

(** X2. In a preview, white space occurs only as single U+0020 spaces:
    no other white-space character, no two spaces in a row, and none at
    the start. *)
Theorem preview_is_single_spaced (text html : jsstring) :
  singleSpaced true (previewOf stripHtml text html) = true.
Proof.
  unfold previewOf, slice0. rewrite orStr_nil_r.
  set (source := if nonEmpty text then text else stripHtml html).
  unfold trim. rewrite trimStart_replaceWsRuns.
  destruct (firstn_prefix 120 (trimEnd (replaceWsRuns true source))) as [t1 H1].
  destruct (trimEnd_prefix (replaceWsRuns true source)) as [t2 H2].
  apply singleSpaced_prefix with (t := t1). rewrite <- H1.
  apply singleSpaced_prefix with (t := t2). rewrite <- H2.
  apply singleSpaced_replaceWsRuns.
Qed.

(** X3. The stored preview is absent exactly when its source, the text
    field or, when the text is empty, the stripped html, holds nothing but
    white space; a text of blanks therefore hides the html. *)
Theorem preview_absent_iff_blank (mailboxId : Z) (f : emailFields) :
  let source := if nonEmpty (f_text f) then f_text f else stripHtml (f_html f) in
  ins_preview (row mailboxId f) = None <-> forallb isWhite source = true.
Proof.
  intros source. unfold rowOf. cbn [ins_preview].
  unfold previewOf, slice0. fold source.
  rewrite orStr_nil_r, trim_collapse_words, <- join_words_nil.
  destruct (join [SPACE] (wsWords source)) as [| c r] eqn:E; simpl.
  - split; reflexivity.
  - split; discriminate.
Qed.

End MoreReceiverProperties.

(** ** More on the read path *)

Section MoreApiProperties.

Variable isMock : bool.
Variable isMailboxOnly : bool.
Variable parseEmailBody : jsstring -> exn + (jsstring * jsstring).
Variable extractEmail : jsstring -> jsstring.
Variable getMailboxIdByAddress : jsstring -> exn + option Z.
Variable toLowerCase : jsstring -> jsstring.
Variable toDouble : Z -> jsnum.
Variable sqlIdEq : Z -> jsstring -> bool.
Variable sqlGe : jsstring -> jsstring -> bool.
Variable sqlList : statement -> list Messages.Row.t -> list Messages.Row.t.
Variable twentyFourHoursAgo : jsstring.

Local Abbreviation timeParam := (timeParamOf isMailboxOnly twentyFourHoursAgo).
Local Abbreviation detailOf :=
  (emailDetail isMock isMailboxOnly parseEmailBody sqlIdEq sqlGe twentyFourHoursAgo).
Local Abbreviation contentOf := (detailContent parseEmailBody sqlIdEq).
Local Abbreviation batchOf :=
  (emailsBatch isMock isMailboxOnly parseEmailBody toDouble sqlGe twentyFourHoursAgo).
Local Abbreviation listOf :=
  (emailsList isMock isMailboxOnly extractEmail getMailboxIdByAddress toLowerCase
     toDouble sqlList twentyFourHoursAgo).

Lemma selectBatch_run (ids : list Z) (tp : option jsstring) (s : db) :
  selectBatch sqlGe ids tp s =
  (if hasEmlColumns s
   then inr (filter (fun r => idIn ids r && inTime sqlGe tp r) (messages s))
   else inl Thrown,
   logged (SelectBatch ids tp) s).
Proof.
  unfold selectBatch, bind, send, requireColumns, readRows, ret.
  cbn [hasEmlColumns logged]. now destruct (hasEmlColumns s).
Qed.

Lemma selectBatchLegacy_run (ids : list Z) (tp : option jsstring) (s : db) :
  selectBatchLegacy sqlGe ids tp s =
  (if hasLegacyColumns s
   then inr (filter (fun r => idIn ids r && inTime sqlGe tp r) (messages s))
   else inl Thrown,
   logged (SelectBatchLegacy ids tp) s).
Proof.
  unfold selectBatchLegacy, bind, send, requireColumns, readRows, ret.
  cbn [hasLegacyColumns logged]. now destruct (hasLegacyColumns s).
Qed.

Lemma batchIds_positive (idsParam : jsstring) :
  Forall (fun z => (0 < z)%Z) (batchIds toDouble idsParam).
Proof.
  unfold batchIds. apply Forall_forall. intros z Hin.
  apply in_map_iff in Hin as (n & <- & Hn). apply filter_In in Hn as [_ Hpos].
  destruct n; try discriminate. simpl in *. now apply Z.ltb_lt.
Qed.

(** X5. The batch route only reads: whatever it answers, it sends at most
    the two batch statements, each binding between 1 and 50 ids, all
    positive, and leaves the table as it was. *)
Theorem batch_statements_bounded (ids : option jsstring) (s : db) :
  exists added,
    sent (snd (batchOf ids s)) = sent s ++ added
    /\ List.length added <= 2
    /\ Forall (fun st => exists l, batchIdsOf st = Some l
                                   /\ 1 <= List.length l <= 50
                                   /\ Forall (fun z => (0 < z)%Z) l) added
    /\ messages (snd (batchOf ids s)) = messages s.
Proof.
  unfold emailsBatch, tryCatch at 1.
  destruct (negb (nonEmpty (trim (optStr ids))));
    [exists []; simpl; rewrite app_nil_r; auto |].
  set (l := batchIds toDouble (trim (optStr ids))).
  assert (Hpos : Forall (fun z => (0 < z)%Z) l) by apply batchIds_positive.
  destruct (List.length l =? 0) eqn:H0; [exists []; simpl; rewrite app_nil_r; auto |].
  destruct (50 <? List.length l) eqn:H50; [exists []; simpl; rewrite app_nil_r; auto |].
  apply Nat.eqb_neq in H0. apply Nat.ltb_ge in H50.
  destruct isMock; [exists []; simpl; rewrite app_nil_r; auto |].
  assert (Hl : exists l', batchIdsOf (SelectBatch l timeParam) = Some l'
                          /\ 1 <= List.length l' <= 50 /\ Forall (fun z => (0 < z)%Z) l')
    by (exists l; repeat split; auto; lia).
  assert (Hl2 : exists l', batchIdsOf (SelectBatchLegacy l timeParam) = Some l'
                          /\ 1 <= List.length l' <= 50 /\ Forall (fun z => (0 < z)%Z) l')
    by (exists l; repeat split; auto; lia).
  unfold tryCatch, bind. rewrite selectBatch_run.
  destruct (hasEmlColumns s).
  - eexists [_]. simpl. repeat split; auto.
  - rewrite selectBatchLegacy_run. cbn [hasLegacyColumns logged].
    destruct (hasLegacyColumns s); eexists [_; _]; simpl;
      rewrite <- app_assoc; repeat split; auto.
Qed.

(** X6. A row that has a raw message is never answered blank, whatever
    the parser returns or throws: the content or the html content of the
    answer is not empty, on the batch route and on the single-detail route,
    which also links the download and sends no further statement. *)
Theorem raw_message_is_never_blank (emailId : jsstring) (row : Messages.Row.t) (s : db) :
  nonEmpty (optStr (Messages.Row.eml_content row)) = true ->
  (nonEmpty (d_content (batchContent parseEmailBody row))
   || nonEmpty (d_html_content (batchContent parseEmailBody row)) = true)
  /\ exists d s',
       contentOf emailId row s = (inr (JsonDetail d), s')
       /\ nonEmpty (d_content d) || nonEmpty (d_html_content d) = true
       /\ d_download d = downloadLink emailId
       /\ s' = s.
Proof.
  intros Heml. unfold batchContent, detailContent.
  destruct (optStr (Messages.Row.eml_content row)) as [| c e] eqn:E; [discriminate |].
  cbn [nonEmpty].
  destruct (parseEmailBody (c :: e)) as [x | [[| tc t] [| hc h]]];
    (split;
     [reflexivity
     | unfold bind, ret; simpl; eexists; eexists; split; [reflexivity |]; auto]).
Qed.


(** *** Reading twice *)

Lemma setRead_idem (r : Messages.Row.t) : setRead (setRead r) = setRead r.
Proof. reflexivity. Qed.

Lemma markRead_idem (emailId : jsstring) (rows : list Messages.Row.t) :
  markRead sqlIdEq emailId (markRead sqlIdEq emailId rows) = markRead sqlIdEq emailId rows.
Proof.
  unfold markRead. rewrite map_map. apply map_ext. intros r.
  destruct (sqlIdEq (Messages.Row.id r) emailId) eqn:E.
  - cbn [setRead Messages.Row.id]. now rewrite E.
  - now rewrite E.
Qed.

Lemma filter_markRead (p : Messages.Row.t -> bool) (emailId : jsstring) (rows : list Messages.Row.t) :
  (forall r, p (setRead r) = p r) ->
  filter p (markRead sqlIdEq emailId rows) = markRead sqlIdEq emailId (filter p rows).
Proof.
  intros Hp. induction rows as [| r rows IH]; [reflexivity |].
  simpl. destruct (sqlIdEq (Messages.Row.id r) emailId) eqn:E.
  - rewrite Hp. destruct (p r); simpl; now rewrite ?E, IH.
  - destruct (p r); simpl; now rewrite ?E, IH.
Qed.

(** What a detail read leaves behind, whatever it answers. *)
Lemma detail_table (emailId : jsstring) (s : db) :
  let s' := snd (detailOf emailId s) in
  hasEmlColumns s' = hasEmlColumns s
  /\ hasLegacyColumns s' = hasLegacyColumns s
  /\ messages s' =
     (if detailWrites isMock isMailboxOnly sqlIdEq sqlGe twentyFourHoursAgo emailId s
      then markRead sqlIdEq emailId (messages s) else messages s).
Proof.
  unfold detailWrites, emailDetail. destruct isMock; [simpl; auto |].
  unfold tryCatch, bind. rewrite selectDetail_run. cbn [negb andb].
  destruct (hasEmlColumns s) eqn:Hcols.
  - destruct (filter _ (messages s)) as [| row rest]; [simpl; auto |].
    rewrite updateRead_run.
    match goal with
    | |- context [detailContent _ _ emailId row ?st] =>
        destruct (detailContent_run parseEmailBody sqlIdEq emailId row st)
          as (d & s1 & Hrun & Hrows & Hc1 & Hc2 & _)
    end.
    rewrite Hrun. cbn [snd notNil]. cbn in Hrows, Hc1, Hc2. rewrite Hrows, Hc1, Hc2. auto.
  - rewrite selectLegacyDetail_run. cbn [hasLegacyColumns logged messages].
    destruct (hasLegacyColumns s) eqn:Hleg; [| simpl; auto].
    destruct (filter _ (messages s)) as [| row rest]; [simpl; auto |].
    rewrite updateRead_run. simpl. auto.
Qed.

(** X7. Reading a message a second time leaves the table as the first
    read left it. *)
Theorem detail_read_idempotent (emailId : jsstring) (s : db) :
  messages (snd (detailOf emailId (snd (detailOf emailId s))))
  = messages (snd (detailOf emailId s)).
Proof.
  destruct (detail_table emailId s) as (Hc1 & Hc2 & Hm).
  destruct (detail_table emailId (snd (detailOf emailId s))) as (_ & _ & Hm2).
  cbv zeta in *. rewrite Hm2.
  destruct (detailWrites isMock isMailboxOnly sqlIdEq sqlGe twentyFourHoursAgo emailId s)
    eqn:W1.
  - rewrite Hm.
    match goal with
    | |- (if ?c then _ else _) = _ => destruct c; [apply markRead_idem | reflexivity]
    end.
  - assert (W2 : detailWrites isMock isMailboxOnly sqlIdEq sqlGe twentyFourHoursAgo emailId
                   (snd (detailOf emailId s)) = false).
    { unfold detailWrites in *. now rewrite Hc1, Hc2, Hm. }
    now rewrite W2.
Qed.

End MoreApiProperties.

(** ** The file name of a download *)

Lemma isFileNameChar_safe (c : N) :
  isFileNameChar c = true ->
  (c =? 34)%N = false /\ (c =? CR)%N = false /\ (c =? LF)%N = false
  /\ (c =? SLASH)%N = false /\ (c =? 92)%N = false.
Proof.
  unfold isFileNameChar, CR, LF, SLASH, UNDERSCORE. intros H.
  repeat match goal with
         | |- _ /\ _ => split
         | |- (c =? ?k)%N = false =>
             destruct (N.eqb_spec c k) as [-> |]; [discriminate H | reflexivity]
         end.
Qed.

Lemma sanitized_chars (s : jsstring) :
  forallb isFileNameChar
    (List.map (fun c => if isFileNameChar c then c else UNDERSCORE) s) = true.
Proof.
  induction s as [| c r IH]; [reflexivity |].
  simpl. rewrite IH, andb_true_r.
  destruct (isFileNameChar c) eqn:E; [exact E | reflexivity].
Qed.

Lemma safe_chars_oneLine (s : jsstring) :
  forallb isFileNameChar s = true -> oneLine s = true /\ countDQ s = 0.
Proof.
  unfold oneLine, countDQ. induction s as [| c r IH]; [auto |].
  cbn [forallb filter]. intros H. apply andb_true_iff in H as [Hc Hr].
  destruct (IH Hr) as [H1 H2].
  destruct (isFileNameChar_safe c Hc) as (Hq & Hcr & Hlf & _).
  rewrite Hcr, Hlf, H1, (N.eqb_sym 34 c), Hq. auto.
Qed.

Lemma countDQ_app (a b : jsstring) : countDQ (a ++ b) = countDQ a + countDQ b.
Proof. unfold countDQ. now rewrite filter_app, length_app. Qed.

(** X9. The file name of a download consists of characters of the allowed
    class only, has the length of the subject (or of the word email) plus
    four, and ends with .eml; the Content-Disposition header built from
    it is one line and holds exactly the two double quotes around the
    name. *)
Theorem download_file_name_is_safe (subject : jsstring) :
  let name := downloadFileName subject in
  forallb isFileNameChar name = true
  /\ List.length name = List.length (orStr subject (lit "email")) + 4
  /\ endsWith (lit ".eml") name = true
  /\ oneLine (contentDisposition name) = true
  /\ countDQ (contentDisposition name) = 2.
Proof.
  intros name.
  assert (Hsafe : forallb isFileNameChar name = true) by apply sanitized_chars.
  destruct (safe_chars_oneLine name Hsafe) as [Hline Hq].
  split; [exact Hsafe |].
  split; [unfold name, downloadFileName; now rewrite length_map, length_app |].
  split.
  - unfold name, downloadFileName, endsWith. rewrite map_app, rev_app_distr.
    reflexivity.
  - unfold contentDisposition. split.
    + repeat (apply oneLine_app; try assumption; try reflexivity).
    + rewrite !countDQ_app, Hq. reflexivity.
Qed.

(** ** The clearing, download and deletion routes *)

Section RouteProperties.

Variable isMock : bool.
Variable isMailboxOnly : bool.
Variable parseEmailBody : jsstring -> exn + (jsstring * jsstring).
Variable extractEmail : jsstring -> jsstring.
Variable getMailboxIdByAddress : jsstring -> exn + option Z.
Variable toLowerCase : jsstring -> jsstring.
Variable toDouble : Z -> jsnum.
Variable sqlIdEq : Z -> jsstring -> bool.
Variable sqlGe : jsstring -> jsstring -> bool.
Variable sqlList : statement -> list Messages.Row.t -> list Messages.Row.t.
Variable twentyFourHoursAgo : jsstring.

Local Abbreviation clear := (clearMailbox isMock extractEmail getMailboxIdByAddress toLowerCase).
Local Abbreviation download := (downloadEml isMock sqlIdEq).
Local Abbreviation delete := (deleteEmail isMock toDouble sqlIdEq).
Local Abbreviation detailOf :=
  (emailDetail isMock isMailboxOnly parseEmailBody sqlIdEq sqlGe twentyFourHoursAgo).
Local Abbreviation api :=
  (handleEmailsApi isMock isMailboxOnly parseEmailBody extractEmail getMailboxIdByAddress
     toLowerCase toDouble sqlIdEq sqlGe sqlList twentyFourHoursAgo).

Lemma filter_split_length (p : Messages.Row.t -> bool) (rows : list Messages.Row.t) :
  List.length (filter p rows) + List.length (filter (fun r => negb (p r)) rows)
  = List.length rows.
Proof.
  induction rows as [| r rows IH]; [reflexivity |].
  simpl. destruct (p r); simpl; lia.
Qed.

Lemma filter_negb_none (p : Messages.Row.t -> bool) (rows : list Messages.Row.t) :
  Forall (fun r => p r = false) (filter (fun r => negb (p r)) rows).
Proof.
  apply Forall_forall. intros r Hin. apply filter_In in Hin as [_ H].
  now apply negb_true_iff.
Qed.

(** X8. Clearing a mailbox that the lookup resolves deletes the rows of
    that mailbox and no other: the rows kept are those of the other
    mailboxes, in their order, the count answered is the number of rows
    removed, and one DELETE statement is sent. *)
Theorem clear_mailbox_removes_one_mailbox (mailboxParam : jsstring) (mailboxId : Z)
    (st : store) :
  isMock = false ->
  mailboxParam <> [] ->
  getMailboxIdByAddress (toLowerCase (trim (extractEmail mailboxParam))) = inr (Some mailboxId) ->
  mailboxId <> 0%Z ->
  let rows := messages (table st) in
  let kept := filter (fun r => negb (Messages.Row.mailbox_id r =? mailboxId)%Z) rows in
  exists n st',
    clear (Some mailboxParam) st = (inr (ClearedJson n), st')
    /\ messages (table st') = kept
    /\ n + List.length kept = List.length rows
    /\ Forall (fun r => Messages.Row.mailbox_id r <> mailboxId) kept
    /\ (forall r, In r rows -> Messages.Row.mailbox_id r <> mailboxId -> In r kept)
    /\ alsoSent st' = alsoSent st ++ [DeleteMailbox mailboxId]
    /\ sent (table st') = sent (table st).
Proof.
  intros Hmock Hparam Hid Hnz rows kept. unfold clearMailbox.
  destruct isMock; [discriminate |].
  cbn [optStr]. rewrite (nonEmpty_true Hparam). cbn [negb].
  unfold tryCatchR. rewrite Hid. cbn [isFalsyId].
  destruct (mailboxId =? 0)%Z eqn:E; [apply Z.eqb_eq in E; contradiction |].
  eexists. eexists. split; [reflexivity |].
  cbn [table messages withRows alsoSent sent snd]. fold rows. fold kept.
  split; [reflexivity |].
  split; [apply (filter_split_length (fun r => (Messages.Row.mailbox_id r =? mailboxId)%Z)) |].
  split.
  - eapply Forall_impl; [| apply (filter_negb_none (fun r => (Messages.Row.mailbox_id r =? mailboxId)%Z))].
    intros r H. now apply Z.eqb_neq.
  - split; [| auto].
    intros r Hin Hne. apply filter_In. split; [exact Hin |].
    apply negb_true_iff. now apply Z.eqb_neq.
Qed.

(** X12. Deleting by an id that [parseInt] reads as an integer removes
    exactly the rows the datastore matches with the id text: the rows
    kept are the others, in their order; the answer tells whether a row
    was matched; one DELETE statement is sent. *)
Theorem delete_email_removes_matching_rows (emailId : jsstring) (z : Z) (st : store) :
  isMock = false ->
  emailId <> [] ->
  parseIntAuto toDouble emailId = Fin z ->
  let rows := messages (table st) in
  let kept := filter (fun r => negb (sqlIdEq (Messages.Row.id r) emailId)) rows in
  exists st',
    delete (Some emailId) st
    = (inr (DeletedJson (existsb (fun r => sqlIdEq (Messages.Row.id r) emailId) rows)), st')
    /\ messages (table st') = kept
    /\ Forall (fun r => sqlIdEq (Messages.Row.id r) emailId = false) kept
    /\ (forall r, In r rows -> sqlIdEq (Messages.Row.id r) emailId = false -> In r kept)
    /\ alsoSent st' = alsoSent st ++ [DeleteMessage emailId]
    /\ sent (table st') = sent (table st).
Proof.
  intros Hmock Hid Hint rows kept. unfold deleteEmail.
  destruct isMock; [discriminate |].
  cbn [optStr]. rewrite (nonEmpty_true Hid), Hint. cbn [negb orb isIntegerNum].
  unfold tryCatchR.
  eexists. split.
  - unfold deleteMessage, bindR, sendLater, readTable, writeTable, retR. cbn.
    fold rows. f_equal. f_equal. f_equal.
    induction rows as [| r rs IH]; [reflexivity |].
    simpl. destruct (sqlIdEq (Messages.Row.id r) emailId); simpl; [reflexivity | exact IH].
  - cbn [table messages withRows alsoSent sent snd]. fold rows. fold kept.
    split; [reflexivity |].
    split; [apply (filter_negb_none (fun r => sqlIdEq (Messages.Row.id r) emailId)) |].
    split; [| auto].
    intros r Hin Hne. apply filter_In. split; [exact Hin |]. now rewrite Hne.
Qed.

(** X13. A deletion whose id, after leading white space and an optional
    sign, does not start with a decimal digit (an absent or empty id
    included) is answered 400 and nothing is sent or changed. *)
Theorem delete_email_rejects_bad_ids (emailId : option jsstring) (st : store) :
  isMock = false ->
  startsWithDigit (snd (splitSign (trimStart (optStr emailId)))) = false ->
  delete emailId st = (inr (Answer (ErrorResponse 400)), st).
Proof.
  intros Hmock Hbad. unfold deleteEmail. destruct isMock; [discriminate |].
  assert (HNaN : parseIntAuto toDouble (optStr emailId) = NaN).
  { unfold parseIntAuto.
    destruct (splitSign (trimStart (optStr emailId))) as [negative s2].
    cbn [snd] in Hbad. rewrite Hbad.
    destruct s2 as [| z [| x r]]; try reflexivity.
    cbn [hasHexPrefix]. cbn [startsWithDigit] in Hbad.
    destruct (N.eqb_spec z 48) as [-> | _]; [discriminate Hbad | reflexivity]. }
  rewrite HNaN. cbn [isIntegerNum negb]. now rewrite orb_true_r.
Qed.


Lemma selectDownload_run (emailId : jsstring) (st : store) :
  selectDownload sqlIdEq emailId st =
  (if hasEmlColumns (table st)
   then inr (filter (fun r => sqlIdEq (Messages.Row.id r) emailId) (messages (table st)))
   else inl Thrown,
   {| table := table st; alsoSent := alsoSent st ++ [SelectDownload emailId] |}).
Proof.
  unfold selectDownload, bindR, sendLater. cbn [table alsoSent].
  now destruct (hasEmlColumns (table st)).
Qed.

(** X10. The download route never writes to the table, and a file it
    answers is the raw message of a row with the requested id, unchanged
    and not empty, named after that row's subject. *)
Theorem download_serves_the_stored_message (emailId : jsstring) (st : store) :
  table (snd (download emailId st)) = table st
  /\ forall disposition body,
       fst (download emailId st) = inr (EmlFile disposition body) ->
       exists row,
         In row (messages (table st))
         /\ sqlIdEq (Messages.Row.id row) emailId = true
         /\ Messages.Row.eml_content row = Some body
         /\ body <> []
         /\ disposition = contentDisposition (downloadFileName (Messages.Row.subject row)).
Proof.
  unfold downloadEml. destruct isMock; [split; [reflexivity | discriminate] |].
  unfold bindR. rewrite selectDownload_run. unfold retR.
  destruct (hasEmlColumns (table st)); [| split; [reflexivity | discriminate]].
  destruct (filter _ (messages (table st))) as [| row rest] eqn:Hf;
    [split; [reflexivity | discriminate] |].
  assert (Hin : In row (filter (fun r => sqlIdEq (Messages.Row.id r) emailId) (messages (table st))))
    by (rewrite Hf; now left).
  apply filter_In in Hin as [Hin Hid].
  destruct (nonEmpty (optStr (Messages.Row.eml_content row))) eqn:Heml; cbn [negb];
    [| split; [reflexivity | discriminate]].
  split; [reflexivity |].
  intros disposition body H. cbn [fst] in H. injection H as <- <-.
  exists row. repeat split; auto.
  - destruct (Messages.Row.eml_content row); [reflexivity | discriminate].
  - destruct (Messages.Row.eml_content row) as [[| c e] |]; discriminate.
Qed.

Lemma detailContent_link (emailId : jsstring) (row : Messages.Row.t) (s : db) :
  exists d s',
    detailContent parseEmailBody sqlIdEq emailId row s = (inr (JsonDetail d), s')
    /\ messages s' = messages s
    /\ hasEmlColumns s' = hasEmlColumns s
    /\ d_row d = row
    /\ d_download d =
       (if nonEmpty (optStr (Messages.Row.eml_content row)) then downloadLink emailId else []).
Proof.
  unfold detailContent, bind, tryCatch, ret.
  match goal with
  | |- context [if ?c then (fun s0 : db => _) else _] => destruct c
  end.
  - rewrite selectLegacyContent_run.
    destruct (hasLegacyColumns s) eqn:E.
    + destruct (filter _ (messages s)); eexists; eexists; (split; [reflexivity |]);
        repeat split; auto.
    + eexists; eexists. split; [reflexivity |]. repeat split; auto.
  - eexists; eexists. split; [reflexivity |]. repeat split; auto.
Qed.

Lemma filter_and_true (p : Messages.Row.t -> bool) (rows : list Messages.Row.t) :
  filter (fun r => p r && true) rows = filter p rows.
Proof. apply filter_ext. intros r. apply andb_true_r. Qed.

(** X11. Outside the mailbox-only mode, when the detail route answers
    with a download link, a download of the same id right after it answers
    the raw message of the row the detail route answered with. *)
Theorem detail_link_leads_to_download (emailId : jsstring) (s s' : db) (d : detail)
    (later : list laterStatement) :
  isMailboxOnly = false ->
  detailOf emailId s = (inr (JsonDetail d), s') ->
  d_download d <> [] ->
  download emailId {| table := s'; alsoSent := later |}
  = (inr (EmlFile (contentDisposition (downloadFileName (Messages.Row.subject (d_row d))))
                  (optStr (Messages.Row.eml_content (d_row d)))),
     {| table := s'; alsoSent := later ++ [SelectDownload emailId] |}).
Proof.
  intros Honly Hrun Hlink. unfold emailDetail in Hrun.
  destruct isMock; [discriminate |].
  unfold tryCatch, bind in Hrun. rewrite selectDetail_run in Hrun.
  unfold timeParamOf in Hrun. destruct isMailboxOnly; [discriminate |].
  cbn [inTime] in Hrun. rewrite filter_and_true in Hrun.
  destruct (hasEmlColumns s) eqn:Hcols.
  - destruct (filter _ (messages s)) as [| row rest] eqn:Hf; [discriminate |].
    rewrite updateRead_run in Hrun.
    match type of Hrun with
    | context [detailContent _ _ emailId row ?st] =>
        destruct (detailContent_link emailId row st)
          as (d1 & s1 & Hc & Hrows & Hflag & Hrow & Hdl)
    end.
    rewrite Hc in Hrun. injection Hrun as <- <-.
    cbn [messages hasEmlColumns withRows logged] in Hrows, Hflag.
    rewrite Hdl in Hlink. rewrite Hrow.
    destruct (nonEmpty (optStr (Messages.Row.eml_content row))) eqn:Heml; [| congruence].
    unfold downloadEml, bindR. rewrite selectDownload_run. unfold retR. cbn [table alsoSent].
    rewrite Hflag, Hcols, Hrows,
      (filter_markRead sqlIdEq (fun r => sqlIdEq (Messages.Row.id r) emailId) emailId (messages s))
      by reflexivity.
    rewrite Hf. cbn [markRead List.map].
    assert (Hid : sqlIdEq (Messages.Row.id row) emailId = true).
    { assert (Hin : In row (filter (fun r => sqlIdEq (Messages.Row.id r) emailId) (messages s)))
        by (rewrite Hf; now left).
      now apply filter_In in Hin. }
    rewrite Hid. cbn [setRead Messages.Row.eml_content Messages.Row.subject]. rewrite Heml. reflexivity.
  - rewrite selectLegacyDetail_run in Hrun. cbn [hasLegacyColumns logged messages] in Hrun.
    destruct (hasLegacyColumns s); [| discriminate].
    destruct (filter _ (messages s)); [discriminate |].
    rewrite updateRead_run in Hrun. discriminate.
Qed.

End RouteProperties.

(** ** The dispatch of [handleEmailsApi] *)

Lemma streq_true (a b : jsstring) : streq a b = true -> a = b.
Proof.
  revert b. induction a as [| x a IH]; intros [| y b] H; try discriminate; [reflexivity |].
  simpl in H. apply andb_true_iff in H as [Hxy Hab].
  apply N.eqb_eq in Hxy. subst y. now rewrite (IH b Hab).
Qed.

Lemma startsWith_app (p s : jsstring) :
  startsWith p s = true -> exists rest, s = p ++ rest.
Proof.
  revert s. induction p as [| a p IH]; intros s H; [now exists s |].
  destruct s as [| b s]; [discriminate |].
  simpl in H. apply andb_true_iff in H as [Hab Hp].
  apply N.eqb_eq in Hab. subst b.
  destruct (IH s Hp) as [rest ->]. now exists rest.
Qed.

Lemma splitOn_head (sep : N) (s : jsstring) :
  exists t, splitOn sep s = takeWhile (fun c => negb (c =? sep)%N) s :: t.
Proof.
  induction s as [| c r [t IH]]; [now exists [] |].
  simpl. destruct (c =? sep)%N; simpl.
  - eexists. reflexivity.
  - rewrite IH. eexists. reflexivity.
Qed.

(** X14. For every path that starts with /api/email/, the fourth piece of
    the path split at slashes exists and is the text between that prefix
    and the next slash. *)
Theorem email_path_names_its_id (path : jsstring) :
  startsWith (lit "/api/email/") path = true ->
  pathSegment3 path
  = Some (takeWhile (fun c => negb (c =? SLASH)%N) (skipn 11 path)).
Proof.
  intros H. destruct (startsWith_app _ _ H) as [rest ->].
  unfold pathSegment3.
  change (skipn 11 (lit "/api/email/" ++ rest)) with rest.
  destruct (splitOn_head SLASH rest) as [t Ht].
  change (lit "/api/email/" ++ rest)
    with (SLASH :: lit "api" ++ SLASH :: lit "email" ++ SLASH :: rest).
  cbn [splitOn lit list_ascii_of_string List.map app].
  rewrite Ht. reflexivity.
Qed.

Lemma email_path_is_no_list_path (path : jsstring) :
  startsWith (lit "/api/email/") path = true ->
  streq path (lit "/api/emails") = false
  /\ streq path (lit "/api/emails/batch") = false.
Proof.
  intros H. destruct (startsWith_app _ _ H) as [rest ->]. split; reflexivity.
Qed.

Section DispatchProperties.

Variable isMock : bool.
Variable isMailboxOnly : bool.
Variable parseEmailBody : jsstring -> exn + (jsstring * jsstring).
Variable extractEmail : jsstring -> jsstring.
Variable getMailboxIdByAddress : jsstring -> exn + option Z.
Variable toLowerCase : jsstring -> jsstring.
Variable toDouble : Z -> jsnum.
Variable sqlIdEq : Z -> jsstring -> bool.
Variable sqlGe : jsstring -> jsstring -> bool.
Variable sqlList : statement -> list Messages.Row.t -> list Messages.Row.t.
Variable twentyFourHoursAgo : jsstring.

Local Abbreviation listOf :=
  (emailsList isMock isMailboxOnly extractEmail getMailboxIdByAddress toLowerCase
     toDouble sqlList twentyFourHoursAgo).
Local Abbreviation batchOf :=
  (emailsBatch isMock isMailboxOnly parseEmailBody toDouble sqlGe twentyFourHoursAgo).
Local Abbreviation detailOf :=
  (emailDetail isMock isMailboxOnly parseEmailBody sqlIdEq sqlGe twentyFourHoursAgo).
Local Abbreviation download := (downloadEml isMock sqlIdEq).
Local Abbreviation api :=
  (handleEmailsApi isMock isMailboxOnly parseEmailBody extractEmail getMailboxIdByAddress
     toLowerCase toDouble sqlIdEq sqlGe sqlList twentyFourHoursAgo).

Lemma emailsList_messages (mailboxParam limitParam : option jsstring) (s : db) :
  messages (snd (listOf mailboxParam limitParam s)) = messages s.
Proof.
  unfold emailsList.
  destruct (negb (nonEmpty (optStr mailboxParam))); [reflexivity |].
  unfold tryCatch at 1.
  destruct isMock; [reflexivity |].
  destruct (getMailboxIdByAddress _) as [e | mailboxId]; [reflexivity |].
  destruct (isFalsyId mailboxId); [reflexivity |].
  unfold tryCatch, bind. rewrite selectList_run.
  destruct (hasEmlColumns s); [reflexivity |].
  rewrite selectListLegacy_run. cbn [hasLegacyColumns logged].
  now destruct (hasLegacyColumns s).
Qed.

Lemma emailsBatch_messages (ids : option jsstring) (s : db) :
  messages (snd (batchOf ids s)) = messages s.
Proof.
  unfold emailsBatch, tryCatch at 1.
  destruct (negb (nonEmpty (trim (optStr ids)))); [reflexivity |].
  destruct (List.length _ =? 0); [reflexivity |].
  destruct (50 <? List.length _); [reflexivity |].
  destruct isMock; [reflexivity |].
  unfold tryCatch, bind. rewrite selectBatch_run.
  destruct (hasEmlColumns s); [reflexivity |].
  rewrite selectBatchLegacy_run. cbn [hasLegacyColumns logged].
  now destruct (hasLegacyColumns s).
Qed.

Lemma downloadEml_table (emailId : jsstring) (st : store) :
  table (snd (download emailId st)) = table st.
Proof.
  unfold downloadEml. destruct isMock; [reflexivity |].
  unfold bindR. rewrite selectDownload_run. unfold retR.
  destruct (hasEmlColumns (table st)); [| reflexivity].
  destruct (filter _ (messages (table st))) as [| row rest]; [reflexivity |].
  now destruct (negb (nonEmpty (optStr (Messages.Row.eml_content row)))).
Qed.

Lemma answered_table (c : M response) (st : store) :
  table (snd (answered c st)) = snd (c (table st)).
Proof.
  unfold answered, bindR, liftM, retR.
  destruct (c (table st)) as [[e | r] s']; reflexivity.
Qed.

Lemma routed_table (c : R apiResponse) (st : store) :
  table (snd (routed c st)) = table (snd (c st)).
Proof.
  unfold routed, bindR, retR. destruct (c st) as [[e | r] st']; reflexivity.
Qed.

Lemma markRead_reads (emailId : jsstring) (rows : list Messages.Row.t) :
  Forall2 (fun r r' => r' = r \/ r' = setRead r) rows (markRead sqlIdEq emailId rows).
Proof.
  induction rows as [| r rows IH]; [constructor |].
  simpl. constructor; [| exact IH].
  destruct (sqlIdEq (Messages.Row.id r) emailId); auto.
Qed.

Lemma same_reads (rows : list Messages.Row.t) :
  Forall2 (fun r r' : Messages.Row.t => r' = r \/ r' = setRead r) rows rows.
Proof. induction rows; constructor; auto. Qed.

(** X15. A request whose method is not DELETE never adds, removes or
    reorders a row, whatever its path: each row is afterwards what it
    was, or what it was with [is_read] set to 1. *)
Theorem only_delete_removes_rows (req : request) (st : store) :
  streq (method req) (lit "DELETE") = false ->
  Forall2 (fun r r' => r' = r \/ r' = setRead r)
    (messages (table st)) (messages (table (snd (api req st)))).
Proof.
  intros Hm. unfold handleEmailsApi. rewrite Hm. cbn [andb].
  repeat match goal with
         | |- context [if ?c then _ else _] =>
             match c with
             | context [req] => destruct c eqn:?
             end
         end;
    rewrite ?answered_table, ?routed_table, ?downloadEml_table,
      ?emailsList_messages, ?emailsBatch_messages;
    try apply same_reads.
  destruct (detail_table isMock isMailboxOnly parseEmailBody sqlIdEq sqlGe
              twentyFourHoursAgo (optStr (pathSegment3 (path req))) (table st))
    as (_ & _ & Hrows).
  cbv zeta in Hrows. rewrite Hrows.
  destruct (detailWrites _ _ _ _ _ _ _); [apply markRead_reads | apply same_reads].
Qed.

(** X16. In the demonstration mode no request, whatever its method and
    path, sends a statement or changes the datastore. *)
Theorem demonstration_mode_touches_nothing (req : request) (st : store) :
  isMock = true -> snd (api req st) = st.
Proof.
  intros Hmock. destruct st as [s later]. unfold handleEmailsApi.
  repeat match goal with
         | |- context [if ?c then _ else _] =>
             match c with
             | context [req] => destruct c eqn:?
             end
         end;
    unfold answered, routed, bindR, liftM, retR, emailsList, emailsBatch, emailDetail,
      clearMailbox, downloadEml, deleteEmail, tryCatch, ret;
    destruct isMock; try discriminate; cbn [table alsoSent];
    repeat match goal with
           | |- context [if ?c then _ else _] => destruct c
           end;
    reflexivity.
Qed.

(** X17. A GET of a path that starts with /api/email/ and ends with
    /download is served by the download route, not by the detail route:
    the table, the read flags included, stays as it was. *)
Theorem download_path_never_marks_read (req : request) (st : store) :
  streq (method req) (lit "GET") = true ->
  startsWith (lit "/api/email/") (path req) = true ->
  endsWith (lit "/download") (path req) = true ->
  api req st = routed (download (optStr (pathSegment3 (path req)))) st
  /\ table (snd (api req st)) = table st.
Proof.
  intros Hget Hstart Hend.
  destruct (email_path_is_no_list_path _ Hstart) as [H1 H2].
  assert (Hdel : streq (method req) (lit "DELETE") = false).
  { apply streq_true in Hget. now rewrite Hget. }
  assert (Hrun : api req st = routed (download (optStr (pathSegment3 (path req)))) st).
  { unfold handleEmailsApi. rewrite H1, H2, Hget, Hdel, Hstart, Hend. reflexivity. }
  split; [exact Hrun |]. rewrite Hrun, routed_table. apply downloadEml_table.
Qed.

End DispatchProperties.

(** ** The viewer's copy and prefetch *)

Lemma tagRest_none (s : jsstring) :
  tagRest s = None <-> closingAt s = None \/ closingAt s = Some 0%nat.
Proof.
  unfold tagRest. destruct (closingAt s) as [[| n] |]; split; auto;
    try discriminate; intros [H | H]; discriminate.
Qed.

Lemma closingAt_zero (s : jsstring) :
  closingAt s = Some 0%nat -> exists r, s = GT_SIGN :: r.
Proof.
  destruct s as [| c r]; [discriminate |]. simpl.
  destruct (N.eqb_spec c GT_SIGN) as [-> | _]; [eauto |].
  destruct (closingAt r); discriminate.
Qed.

Lemma closingAt_replaceTags_none (k : nat) (s : jsstring) :
  closingAt s = None -> closingAt (replaceTags k s) = None.
Proof.
  revert k. induction s as [| c r IH]; intros k H; [now destruct k |].
  simpl in H. destruct (c =? GT_SIGN)%N eqn:Hc; [discriminate |].
  destruct (closingAt r) eqn:Hr; [discriminate |].
  destruct k as [| k]; [| simpl; now apply IH].
  cbn [replaceTags]. unfold tagRest. rewrite Hr.
  destruct (c =? LT_SIGN)%N; simpl; rewrite Hc, (IH 0%nat); auto.
Qed.

Lemma tagRest_replaceTags_none (s : jsstring) :
  tagRest s = None -> tagRest (replaceTags 0 s) = None.
Proof.
  intros H. apply tagRest_none in H as [H | H]; apply tagRest_none.
  - left. now apply closingAt_replaceTags_none.
  - right. apply closingAt_zero in H as [r ->]. reflexivity.
Qed.

Lemma noTags_replaceTags (k : nat) (s : jsstring) : noTags (replaceTags k s) = true.
Proof.
  revert k. induction s as [| c r IH]; intros k; [now destruct k |].
  destruct k as [| k]; [| simpl; apply IH].
  cbn [replaceTags]. destruct (c =? LT_SIGN)%N eqn:Hc.
  - destruct (tagRest r) as [n |] eqn:Hr.
    + cbn [noTags]. change (SPACE =? LT_SIGN)%N with false. cbn [andb]. apply IH.
    + cbn [noTags]. rewrite Hc, (tagRest_replaceTags_none _ Hr). cbn [andb]. apply IH.
  - cbn [noTags]. rewrite Hc. cbn [andb]. apply IH.
Qed.

Lemma replaceTags_fixed (s : jsstring) : noTags s = true -> replaceTags 0 s = s.
Proof.
  induction s as [| c r IH]; [reflexivity |].
  cbn [noTags replaceTags]. intros H. apply andb_true_iff in H as [Hc Hr].
  destruct (c =? LT_SIGN)%N.
  - destruct (tagRest r); [discriminate |]. now rewrite IH.
  - now rewrite IH.
Qed.

Lemma replaceTags_length (k : nat) (s : jsstring) :
  List.length (replaceTags k s) <= List.length s.
Proof.
  revert k. induction s as [| c r IH]; intros k; [now destruct k |].
  destruct k as [| k]; [| simpl; specialize (IH k); lia].
  cbn [replaceTags]. destruct (c =? LT_SIGN)%N; [destruct (tagRest r) as [n |] |];
    simpl; [specialize (IH n) | specialize (IH 0%nat) | specialize (IH 0%nat)]; lia.
Qed.

Lemma closingAt_app (x t : jsstring) (n : nat) :
  closingAt x = Some n -> closingAt (x ++ t) = Some n.
Proof.
  revert n. induction x as [| c r IH]; intros n H; [discriminate |].
  simpl in *. destruct (c =? GT_SIGN)%N; [exact H |].
  destruct (closingAt r) as [m |]; [| discriminate].
  now rewrite (IH m eq_refl).
Qed.

Lemma tagRest_prefix (x t : jsstring) : tagRest (x ++ t) = None -> tagRest x = None.
Proof.
  unfold tagRest. destruct (closingAt x) as [n |] eqn:E; [| reflexivity].
  now rewrite (closingAt_app _ t E).
Qed.

Lemma noTags_prefix (a t : jsstring) : noTags (a ++ t) = true -> noTags a = true.
Proof.
  induction a as [| c r IH]; [reflexivity |].
  cbn [app noTags]. intros H. apply andb_true_iff in H as [Hc Hr].
  rewrite (IH Hr), andb_true_r.
  destruct (c =? LT_SIGN)%N; [| reflexivity].
  destruct (tagRest (r ++ t)) eqn:E; [discriminate |].
  now rewrite (tagRest_prefix _ _ E).
Qed.

(** X18. Replacing the tags of a string by spaces leaves no tag behind,
    so doing it twice is doing it once; a string without [<] is returned
    unchanged, and the result is never longer than the input. *)
Theorem tag_removal_is_idempotent (s : jsstring) :
  replaceTags 0 (replaceTags 0 s) = replaceTags 0 s
  /\ noTags (replaceTags 0 s) = true
  /\ (existsb (N.eqb LT_SIGN) s = false -> replaceTags 0 s = s)
  /\ List.length (replaceTags 0 s) <= List.length s.
Proof.
  split; [apply replaceTags_fixed, noTags_replaceTags |].
  split; [apply noTags_replaceTags |].
  split; [| apply replaceTags_length].
  intros H. apply replaceTags_fixed.
  induction s as [| c r IH]; [reflexivity |].
  cbn [existsb] in H. apply orb_false_iff in H as [Hc Hr].
  cbn [noTags]. rewrite (N.eqb_sym c LT_SIGN), Hc. now apply IH.
Qed.

(** X19. The text copied for a message has at most 500 characters; it is
    the start of the content when there is content (the html is then not
    looked at), and otherwise it holds no tag. *)
Theorem copied_text_is_bounded (email : detail) :
  List.length (textToCopy email) <= 500
  /\ (d_content email <> [] -> textToCopy email = firstn 500 (d_content email))
  /\ (d_content email = [] -> noTags (textToCopy email) = true).
Proof.
  unfold textToCopy, slice0. split; [rewrite length_firstn; lia |]. split.
  - intros H. unfold orStr at 1. now rewrite (nonEmpty_true H).
  - intros ->. unfold orStr at 1. cbn [nonEmpty]. rewrite orStr_nil_r.
    apply noTags_prefix with (t := skipn 500 (replaceTags 0 (d_html_content email))).
    rewrite firstn_skipn. apply noTags_replaceTags.
Qed.

Section PrefetchProperties.

Variable cache : Type.
Variable getEmailFromCache : cache -> Z -> option detail.
Variable setEmailCache : cache -> Z -> detail -> cache.
Variable fetchDetail : Z -> exn + detail.

Local Abbreviation loop := (prefetchLoop getEmailFromCache setEmailCache fetchDetail).
Local Abbreviation prefetch := (prefetchEmails getEmailFromCache setEmailCache fetchDetail).

Lemma prefetchLoop_requests (top : list Z) (c : cache) :
  List.length (snd (loop top c)) <= List.length top
  /\ incl (snd (loop top c)) top.
Proof.
  revert c. induction top as [| id rest IH]; intros c.
  - split; [reflexivity | apply incl_refl].
  - cbn [prefetchLoop]. destruct (getEmailFromCache c id).
    + destruct (IH c) as [Hl Hi]. split; [simpl; lia | now apply incl_tl].
    + match goal with
      | |- context [loop rest ?c1] =>
          destruct (IH c1) as [Hl Hi]; destruct (loop rest c1) as [c2 requested]
      end.
      cbn [snd] in *. split; [simpl; lia |].
      intros x [<- | Hx]; [now left | right; now apply Hi].
Qed.

Lemma prefetchLoop_all_cached (top : list Z) (c : cache) :
  Forall (fun id => getEmailFromCache c id <> None) top ->
  loop top c = (c, []).
Proof.
  induction 1 as [| id rest Hid _ IH]; [reflexivity |].
  cbn [prefetchLoop]. destruct (getEmailFromCache c id); [exact IH | congruence].
Qed.

(** X20. Prefetching requests at most five messages, never more than
    the list holds and only ids among its first five; when those are all
    cached it requests nothing and leaves the cache as it is. *)
Theorem prefetch_requests_at_most_five (ids : list Z) (c : cache) :
  let run := prefetchEmails getEmailFromCache setEmailCache fetchDetail ids c in
  List.length (snd run) <= 5
  /\ List.length (snd run) <= List.length ids
  /\ incl (snd run) (firstn 5 ids)
  /\ (Forall (fun id => getEmailFromCache c id <> None) (firstn 5 ids) ->
      run = (c, [])).
Proof.
  unfold prefetchEmails.
  destruct (prefetchLoop_requests (firstn 5 ids) c) as [Hl Hi].
  rewrite length_firstn in Hl.
  repeat split; [lia | lia | exact Hi | apply prefetchLoop_all_cached].
Qed.

End PrefetchProperties.

(** ** Payloads that are not objects, and failing requests *)

Section PayloadEdgeProperties.

Variable number : Type.
Variable numTruthy : number -> bool.
Variable numToString : number -> jsstring.
Variable extractEmail : jsstring -> jsstring.
Variable getOrCreateMailboxId : jsstring -> exn + Z.
Variable stripHtml : jsstring -> jsstring.
Variable extractVerificationCode : jsstring -> jsstring -> jsstring -> exn + jsstring.
Variable dbInsert : insertedRow -> exn + unit.
Variable now : jsstring.
Variable token : jsstring.

Local Abbreviation coerce := (coercePayload numTruthy numToString).
Local Abbreviation receive :=
  (handleEmailReceive numTruthy numToString extractEmail getOrCreateMailboxId
     stripHtml extractVerificationCode dbInsert now token).

(** X4. A JSON body that is not an object (null, a boolean, a number, a
    string, an array) is not refused: every field takes its default and
    the handler does exactly what it does for the empty object. *)
Theorem non_object_payload_is_an_empty_message (emailData : json number) :
  isObject emailData = false ->
  coerce emailData = defaultFields
  /\ receive (inr emailData) = receive (inr (JObj []))
  /\ html (envelopeOf extractEmail now token (coerce emailData)) = []
  /\ text (envelopeOf extractEmail now token (coerce emailData)) = [].
Proof.
  intros Hno.
  assert (Hfields : coerce emailData = defaultFields)
    by (destruct emailData; try reflexivity; discriminate).
  split; [exact Hfields |].
  unfold handleEmailReceive. rewrite Hfields.
  repeat split.
Qed.

End PayloadEdgeProperties.

Section PrefetchFailures.

Variable cache : Type.
Variable getEmailFromCache : cache -> Z -> option detail.
Variable setEmailCache : cache -> Z -> detail -> cache.
Variable fetchDetail : Z -> exn + detail.

Local Abbreviation prefetch := (prefetchEmails getEmailFromCache setEmailCache fetchDetail).

(** X21. When every request fails, prefetching still goes through the
    first five ids, requests each of them that is not cached, and leaves
    the cache unchanged. *)
Theorem prefetch_survives_failures (ids : list Z) (c : cache) :
  Forall (fun id => fetchDetail id = inl Thrown) (firstn 5 ids) ->
  prefetchEmails getEmailFromCache setEmailCache fetchDetail ids c
  = (c, filter (uncached getEmailFromCache c) (firstn 5 ids)).
Proof.
  unfold prefetchEmails. induction 1 as [| id rest Hid _ IH]; [reflexivity |].
  cbn [prefetchLoop filter]. unfold uncached at 1.
  destruct (getEmailFromCache c id); [exact IH |].
  now rewrite Hid, IH.
Qed.

End PrefetchFailures.

(** ** The properties on the samples *)

Lemma ingested_row_is_complete_witness :
  exists row,
    handleEmailReceive (fun z => negb (z =? 0)%Z) sampleDigits (fun a => a)
      sampleMailboxId (fun h => h) extractorFindsNothing sampleInsert
      (lit "Tue, 03 Nov 2026 08:00:00 GMT") (lit "0b5c") (inr samplePayload)
    = ReceiveOk row
    /\ ins_eml_content row <> None
    /\ ins_subject row = NO_SUBJECT
    /\ ins_mailbox_id row = 7%Z.
Proof.
  eexists.
  assert (Hrun : handleEmailReceive (fun z => negb (z =? 0)%Z) sampleDigits (fun a => a)
                   sampleMailboxId (fun h => h) extractorFindsNothing sampleInsert
                   (lit "Tue, 03 Nov 2026 08:00:00 GMT") (lit "0b5c") (inr samplePayload)
                 = ReceiveOk _) by reflexivity.
  split; [exact Hrun |].
  destruct (@ingested_row_is_complete _ _ _ _ _ _ _ _ _ _ _ _ Hrun)
    as (Heml & _ & _ & _ & _ & _).
  split; [rewrite Heml; discriminate |]. split; reflexivity.
Defined.

Lemma preview_absent_iff_blank_witness :
  ins_preview
    (rowOf (fun a => a) (fun h => h) extractorFindsNothing
       (lit "Tue, 03 Nov 2026 08:00:00 GMT") (lit "0b5c") 7%Z
       {| f_to := []; f_from := []; f_subject := NO_SUBJECT;
          f_text := lit "   "; f_html := lit "<b>Hi</b>" |})
  = None.
Proof.
  apply (@preview_absent_iff_blank (fun a => a) (fun h => h) extractorFindsNothing
           (lit "Tue, 03 Nov 2026 08:00:00 GMT") (lit "0b5c") 7%Z _).
  reflexivity.
Defined.

Lemma raw_message_is_never_blank_witness :
  nonEmpty (optStr (Messages.Row.eml_content sampleRow1)) = true
  /\ nonEmpty (d_content (batchContent parseThrows sampleRow1))
     || nonEmpty (d_html_content (batchContent parseThrows sampleRow1)) = true.
Proof.
  split; [reflexivity |].
  apply (@raw_message_is_never_blank parseThrows sampleSqlIdEq (lit "1") sampleRow1 sampleDb).
  reflexivity.
Defined.

Lemma clear_mailbox_removes_one_mailbox_witness :
  exists n st',
    clearMailbox false (fun a => a) sampleMailboxLookup (fun a => a)
      (Some (lit "box@freemail.test")) sampleStore
    = (inr (ClearedJson n), st')
    /\ messages (table st') = []
    /\ n = 2.
Proof.
  destruct (@clear_mailbox_removes_one_mailbox false (fun a => a) sampleMailboxLookup
              (fun a => a) (lit "box@freemail.test") 7%Z sampleStore)
    as (n & st' & Hrun & Hrows & Hcount & _); try reflexivity; try discriminate.
  exists n, st'. split; [exact Hrun |]. split; [exact Hrows |].
  simpl in Hcount. lia.
Defined.

Lemma delete_email_removes_matching_rows_witness :
  exists st',
    deleteEmail false Fin sampleSqlIdEq (Some (lit "1")) sampleStore
    = (inr (DeletedJson true), st')
    /\ messages (table st') = [sampleRow2].
Proof.
  destruct (@delete_email_removes_matching_rows false Fin sampleSqlIdEq (lit "1") 1%Z
              sampleStore)
    as (st' & Hrun & Hrows & _); try reflexivity; try discriminate.
  exists st'. split; [exact Hrun | exact Hrows].
Defined.

Lemma delete_email_rejects_bad_ids_witness :
  deleteEmail false Fin sampleSqlIdEq (Some (lit "x1")) sampleStore
  = (inr (Answer (ErrorResponse 400)), sampleStore).
Proof.
  apply (@delete_email_rejects_bad_ids false Fin sampleSqlIdEq); reflexivity.
Defined.

Lemma download_serves_the_stored_message_witness :
  exists disposition,
    fst (downloadEml false sampleSqlIdEq (lit "1") sampleStore)
    = inr (EmlFile disposition (buildEml samplePlain))
    /\ exists row, In row (messages sampleDb)
                   /\ Messages.Row.eml_content row = Some (buildEml samplePlain).
Proof.
  eexists. split; [reflexivity |].
  destruct (@download_serves_the_stored_message false sampleSqlIdEq (lit "1") sampleStore)
    as [_ Hserved].
  destruct (Hserved _ _ eq_refl) as (row & Hin & _ & Heml & _).
  exists row. split; [exact Hin | exact Heml].
Defined.

Lemma detail_link_leads_to_download_witness :
  let run := sampleDetail sampleParse (lit "1") sampleDb in
  exists disposition later,
    downloadEml false sampleSqlIdEq (lit "1") {| table := snd run; alsoSent := [] |}
    = (inr (EmlFile disposition (buildEml samplePlain)),
       {| table := snd run; alsoSent := later |}).
Proof.
  intros run.
  destruct run as [[e | [status | | rows | items | d | row]] s'] eqn:Hrun;
    try (vm_compute in Hrun; discriminate).
  assert (Hlink : d_download d <> [])
    by (vm_compute in Hrun; injection Hrun as <- _; discriminate).
  assert (Heml : optStr (Messages.Row.eml_content (d_row d)) = buildEml samplePlain)
    by (vm_compute in Hrun; injection Hrun as <- _; reflexivity).
  pose proof (@detail_link_leads_to_download false false sampleParse sampleSqlIdEq sampleSqlGe
                (lit "2026-11-02T08:00:00.000Z") (lit "1") sampleDb s' d [] eq_refl Hrun Hlink)
    as Hdl.
  rewrite Heml in Hdl. cbn [snd]. eexists. eexists. exact Hdl.
Defined.

Lemma email_path_names_its_id_witness :
  pathSegment3 (lit "/api/email/42/download") = Some (lit "42").
Proof. apply (email_path_names_its_id (lit "/api/email/42/download")). reflexivity. Defined.

Lemma only_delete_removes_rows_witness :
  Forall2 (fun r r' => r' = r \/ r' = setRead r)
    (messages sampleDb)
    (messages (table (snd (sampleApi false (sampleRequest "GET" "/api/email/1") sampleStore)))).
Proof.
  apply (@only_delete_removes_rows false false sampleParse (fun a => a) sampleMailboxLookup
           (fun a => a) Fin sampleSqlIdEq sampleSqlGe (fun _ rows => rows)
           (lit "2026-11-02T08:00:00.000Z") (sampleRequest "GET" "/api/email/1") sampleStore).
  reflexivity.
Defined.

Lemma demonstration_mode_touches_nothing_witness :
  snd (sampleApi true (sampleRequest "DELETE" "/api/emails") sampleStore) = sampleStore
  /\ snd (sampleApi true (sampleRequest "GET" "/api/email/1") sampleStore) = sampleStore.
Proof.
  split;
    apply (@demonstration_mode_touches_nothing true false sampleParse (fun a => a)
             sampleMailboxLookup (fun a => a) Fin sampleSqlIdEq sampleSqlGe
             (fun _ rows => rows) (lit "2026-11-02T08:00:00.000Z"));
    reflexivity.
Defined.

Lemma download_path_never_marks_read_witness :
  table (snd (sampleApi false (sampleRequest "GET" "/api/email/1/download") sampleStore))
  = sampleDb.
Proof.
  apply (@download_path_never_marks_read false false sampleParse (fun a => a)
           sampleMailboxLookup (fun a => a) Fin sampleSqlIdEq sampleSqlGe
           (fun _ rows => rows) (lit "2026-11-02T08:00:00.000Z")
           (sampleRequest "GET" "/api/email/1/download") sampleStore);
    reflexivity.
Defined.

Lemma tag_removal_is_idempotent_witness :
  replaceTags 0 (lit "no markup here") = lit "no markup here".
Proof.
  apply (tag_removal_is_idempotent (lit "no markup here")). reflexivity.
Defined.

Lemma copied_text_is_bounded_witness :
  let email := displayedMessage None (lit "Hi") [] (lit "<p>Hello <b>world</b></p>") in
  d_content email = [] /\ noTags (textToCopy email) = true.
Proof.
  intros email. split; [reflexivity |].
  apply (copied_text_is_bounded email). reflexivity.
Defined.

Lemma prefetch_requests_at_most_five_witness :
  prefetchEmails sampleCacheGet sampleCacheSet fetchFails [2%Z] sampleCache
  = (sampleCache, []).
Proof.
  apply (@prefetch_requests_at_most_five _ sampleCacheGet sampleCacheSet fetchFails
           [2%Z] sampleCache).
  repeat constructor. discriminate.
Defined.

Lemma prefetch_survives_failures_witness :
  prefetchEmails sampleCacheGet sampleCacheSet fetchFails
    [1%Z; 2%Z; 3%Z; 4%Z; 5%Z; 6%Z; 7%Z] sampleCache
  = (sampleCache, [1%Z; 3%Z; 4%Z; 5%Z]).
Proof.
  apply (@prefetch_survives_failures _ sampleCacheGet sampleCacheSet fetchFails
           [1%Z; 2%Z; 3%Z; 4%Z; 5%Z; 6%Z; 7%Z] sampleCache).
  repeat constructor.
Defined.

Lemma non_object_payload_is_an_empty_message_witness :
  coercePayload (fun z => negb (z =? 0)%Z) sampleDigits (JArr [JNum 1%Z; JNum 2%Z])
  = defaultFields.
Proof.
  apply (@non_object_payload_is_an_empty_message _ (fun z => negb (z =? 0)%Z) sampleDigits
           (fun a => a) sampleMailboxId (fun h => h) extractorFindsNothing sampleInsert
           (lit "Tue, 03 Nov 2026 08:00:00 GMT") (lit "0b5c")
           (JArr [JNum 1%Z; JNum 2%Z])).
  reflexivity.
Defined.
